(** * Streamflow statistics and metrics (program_10.py)

    A shallow embedding of the descriptive-statistics pipeline of
    [program_10.py]: [ReadData], [ClipData], the four metric calculators
    [CalcTqmean], [CalcRBindex], [Calc7Q], [CalcExceed3TimesMedian], the
    water-year aggregator [GetAnnualStatistics] and [GetAnnualAverages],
    the monthly aggregator [GetMonthlyStatistics] and
    [GetMonthlyAverages], and the computation the main loop runs for one
    dataset (printing and the writing of reports are left out).

    Numbers.  The program computes on IEEE doubles.  Here a double is an
    extended number [ext A]: a finite value of an exact field [A], or one
    of the three special values +inf, -inf and NaN.  The pipeline is
    written over exact arithmetic: rounding and signed zeros are
    abstracted away; everything else (NaN propagation, division by zero,
    skipping of nulls) follows numpy and pandas.  [A] is [Q] wherever the
    code only adds, multiplies, divides and compares, so those functions
    evaluate; the two statistics that take a square root (the standard
    deviation behind "Coeff Var", and the skewness) finish in [R].

    Two metrics compare the data with a number that was rounded on the
    way: [CalcTqmean] with the computed mean, [CalcExceed3TimesMedian]
    with the computed product 3*median.  Their counts can differ by whole
    days from the counts of exact arithmetic, so both are modelled a
    second time on doubles ([round64], [CalcTqmean_f64],
    [CalcExceed3TimesMedian_f64]), and what is stated about their value is
    stated there.

    Library behaviour is that of the versions the script was written for
    (pandas 1.0, scipy 1.4; April 2020). *)

From Stdlib Require Import String.
From Stdlib Require Import List ZArith QArith Qabs Qminmax Qround Qpower Qreals
  Reals ROrderedType.
From Stdlib Require Import Lia Lra Bool Arith Sorting.Mergesort
  Sorting.Permutation Sorting.Sorted Orders.
Import ListNotations.

Set Implicit Arguments.

(* ================================================================= *)
(** ** Extended numbers *)

Module Ext.

Inductive ext (A : Type) : Type :=
| Fin (a : A)
| PInf
| NInf
| NaN.
Arguments PInf {A}.
Arguments NInf {A}.
Arguments NaN {A}.

(** The arithmetic a double offers, on an exact carrier. *)
Class Num (A : Type) : Type := {
  nzero : A;
  nadd : A -> A -> A;
  nmul : A -> A -> A;
  ndiv : A -> A -> A;
  nsign : A -> comparison;      (* the carrier value compared with zero *)
  nofZ : Z -> A
}.

#[export] Instance Num_Q : Num Q := {
  nzero := 0%Q;
  nadd := Qplus;
  nmul := Qmult;
  ndiv := Qdiv;
  nsign := fun q => Qcompare q 0;
  nofZ := inject_Z
}.

#[export] Instance Num_R : Num R := {
  nzero := 0%R;
  nadd := Rplus;
  nmul := Rmult;
  ndiv := Rdiv;
  nsign := fun r => Rcompare r 0;
  nofZ := IZR
}.

Section Ops.
Context {A : Type} `{Num A}.

Definition is_nan (v : ext A) : bool :=
  match v with NaN => true | _ => false end.

Definition xadd (a b : ext A) : ext A :=
  match a, b with
  | NaN, _ | _, NaN => NaN
  | Fin x, Fin y => Fin (nadd x y)
  | PInf, NInf | NInf, PInf => NaN
  | PInf, _ | _, PInf => PInf
  | NInf, _ | _, NInf => NInf
  end.

Definition xmul (a b : ext A) : ext A :=
  match a, b with
  | NaN, _ | _, NaN => NaN
  | Fin x, Fin y => Fin (nmul x y)
  | Fin x, PInf | PInf, Fin x =>
      match nsign x with Eq => NaN | Gt => PInf | Lt => NInf end
  | Fin x, NInf | NInf, Fin x =>
      match nsign x with Eq => NaN | Gt => NInf | Lt => PInf end
  | PInf, PInf | NInf, NInf => PInf
  | PInf, NInf | NInf, PInf => NInf
  end.

(** numpy's true division: a zero divisor gives NaN or an infinity
    (with a RuntimeWarning), never an exception. *)
Definition xdiv (a b : ext A) : ext A :=
  match a, b with
  | NaN, _ | _, NaN => NaN
  | Fin x, Fin y =>
      match nsign y with
      | Eq => match nsign x with Eq => NaN | Gt => PInf | Lt => NInf end
      | _ => Fin (ndiv x y)
      end
  | Fin _, _ => Fin nzero
  | PInf, Fin y => match nsign y with Lt => NInf | _ => PInf end
  | NInf, Fin y => match nsign y with Lt => PInf | _ => NInf end
  | _, _ => NaN
  end.

Definition of_nat (n : nat) : ext A := Fin (nofZ (Z.of_nat n)).

(** [DataFrame.mean(axis=0)] on one column (skipna=True): NaN entries
    are dropped, the rest is summed and divided by its count; an
    all-NaN column has mean NaN. *)
Definition nanmean (col : list (ext A)) : ext A :=
  let vs := filter (fun v => negb (is_nan v)) col in
  match vs with
  | [] => NaN
  | _ => xdiv (fold_left xadd vs (Fin nzero)) (of_nat (length vs))
  end.

End Ops.

Definition xmap {A B : Type} (f : A -> B) (v : ext A) : ext B :=
  match v with
  | Fin a => Fin (f a)
  | PInf => PInf
  | NInf => NInf
  | NaN => NaN
  end.

(** Equality of results: finite rationals are compared as numbers. *)
Definition feq (a b : ext Q) : Prop :=
  match a, b with
  | Fin x, Fin y => x == y
  | PInf, PInf | NInf, NInf | NaN, NaN => True
  | _, _ => False
  end.

End Ext.
Export Ext.

Abbreviation fval := (ext Q).
Abbreviation rval := (ext R).
Infix "=f=" := feq (at level 70, no associativity).

(* ================================================================= *)
(** ** Exceptions *)

Inductive exn : Type :=
| IndexError      (* positional access outside the data *)
| ValueError.     (* an index of the wrong length assigned to a frame *)

Inductive result (A : Type) : Type :=
| Ok (a : A)
| Raise (e : exn).
Arguments Raise {A}.

Definition bind {A B : Type} (m : result A) (k : A -> result B) : result B :=
  match m with
  | Ok a => k a
  | Raise e => Raise e
  end.

Notation "x <- m ;; k" := (bind m (fun x => k))
  (at level 61, m at next level, right associativity).

(* ================================================================= *)
(** ** Series of discharges *)

(** A float64 column: [None] is a null (NaN) entry. *)
Definition Series := list (option Q).

(** [Series.dropna()]. *)
Fixpoint dropna (qs : Series) : list Q :=
  match qs with
  | [] => []
  | Some q :: r => q :: dropna r
  | None :: r => dropna r
  end.

(** [Series.isna().sum()]. *)
Definition isna_sum (qs : Series) : nat :=
  length (filter (fun o => match o with None => true | Some _ => false end) qs).

(** [Series.sum()] of a null-free series. *)
Definition series_sum (xs : list Q) : Q := fold_left Qplus xs 0.

(** [Series.mean()] of a null-free series: NaN when it is empty. *)
Definition series_mean (xs : list Q) : fval :=
  match xs with
  | [] => NaN
  | _ => Fin (series_sum xs / inject_Z (Z.of_nat (length xs)))
  end.

(** [x > m] for a finite [x]; every comparison with NaN is False. *)
Definition gt (m : fval) (x : Q) : bool :=
  match m with
  | Fin q => negb (Qle_bool x q)
  | NInf => true
  | PInf | NaN => false
  end.

(** [(Qvalues > m).sum()]. *)
Definition count_gt (m : fval) (xs : list Q) : nat :=
  length (filter (gt m) xs).

(** [Series.min()] and [Series.max()] of a null-free series. *)
Definition series_min (xs : list Q) : fval :=
  match xs with
  | [] => NaN
  | x :: r => Fin (fold_left Qmin r x)
  end.

Definition series_max (xs : list Q) : fval :=
  match xs with
  | [] => NaN
  | x :: r => Fin (fold_left Qmax r x)
  end.

Module QOrder <: TotalLeBool.
Definition t := Q.
Definition leb := Qle_bool.
Theorem leb_total : forall a b, leb a b = true \/ leb b a = true.
Proof.
  intros a b. unfold leb. rewrite !Qle_bool_iff.
  destruct (Qlt_le_dec a b) as [L | L]; [left; apply Qlt_le_weak, L | right; exact L].
Qed.
End QOrder.

Module QSort := Sort QOrder.

(** [Series.median()] of a null-free series: the middle value of the
    sorted data, or the mean of the two middle values. *)
Definition series_median (xs : list Q) : fval :=
  let s := QSort.sort xs in
  let n := length s in
  match n with
  | O => NaN
  | _ =>
      if Nat.even n
      then Fin ((nth (n / 2 - 1) s 0 + nth (n / 2) s 0) / 2)
      else Fin (nth (n / 2) s 0)
  end.

(* ================================================================= *)
(** ** MetricSet *)

(** Integer keys on a date-indexed series are positions
    ([Qvalues[i]] is the i-th entry); outside the data the access raises. *)
Definition series_get (xs : list Q) (i : nat) : result Q :=
  match nth_error xs i with
  | Some v => Ok v
  | None => Raise IndexError
  end.

Definition CalcTqmean (Qvalues : Series) : result fval :=
  let Qvalues := dropna Qvalues in
  let T := length Qvalues in
  let Tqmean := xdiv (of_nat (count_gt (series_mean Qvalues) Qvalues)) (of_nat T) in
  Ok Tqmean.

(** The body of [for i in range(len(Qvalues)-1)], over the indices left. *)
Fixpoint rb_loop (Qvalues : list Q) (range : list nat) (sum_abs : Q) : result Q :=
  match range with
  | [] => Ok sum_abs
  | i :: range' =>
      a <- series_get Qvalues (i + 1) ;;
      b <- series_get Qvalues i ;;
      rb_loop Qvalues range' (sum_abs + Qabs (a - b))
  end.

(** [range(len - 1)] is empty for an empty series, as is [seq 0 (0 - 1)]. *)
Definition CalcRBindex (Qvalues : Series) : result fval :=
  let Qvalues := dropna Qvalues in
  sum_abs <- rb_loop Qvalues (seq 0 (length Qvalues - 1)) 0 ;;
  let RBindex := xdiv (Fin sum_abs) (Fin (series_sum Qvalues)) in
  Ok RBindex.

(** [Series.rolling(window=w).mean()]: entry [i] is the mean of the [w]
    entries ending at [i], and null while fewer than [w] are available
    (min_periods defaults to the window). *)
Definition rolling_mean (w : nat) (xs : list Q) : Series :=
  map (fun i =>
         if (i + 1 <? w)%nat then None
         else Some (series_sum (firstn w (skipn (i + 1 - w) xs))
                    / inject_Z (Z.of_nat w)))
      (seq 0 (length xs)).

Definition Calc7Q (Qvalues : Series) : result fval :=
  let Qvalues := dropna Qvalues in
  let val7Q := series_min (dropna (rolling_mean 7 Qvalues)) in
  Ok val7Q.

Definition CalcExceed3TimesMedian (Qvalues : Series) : result nat :=
  let Qvalues := dropna Qvalues in
  let median3x := count_gt (xmul (Fin 3) (series_median Qvalues)) Qvalues in
  Ok median3x.

(* ================================================================= *)
(** ** Dates and time series *)

Record Date : Type := mkDate { year : Z; month : Z; day : Z }.

Definition date_compare (a b : Date) : comparison :=
  match Z.compare (year a) (year b) with
  | Eq =>
      match Z.compare (month a) (month b) with
      | Eq => Z.compare (day a) (day b)
      | c => c
      end
  | c => c
  end.

Definition date_leb (a b : Date) : bool :=
  match date_compare a b with Gt => false | _ => true end.

Definition date_ltb (a b : Date) : bool :=
  match date_compare a b with Lt => true | _ => false end.

(** One parsed line of the gauge file; [Date] is the frame's index. *)
Record Observation : Type := mkObs {
  obs_date : Date;
  agency_cd : string;
  site_no : Z;
  Discharge : option Q;
  Quality : string
}.

Definition DataFrame := list Observation.

(** [DataDF['Discharge']]. *)
Definition discharges (df : DataFrame) : Series := map Discharge df.

(** The series invariant: rows ascend by date. *)
Definition date_sorted (df : DataFrame) : Prop :=
  StronglySorted (fun a b => date_leb (obs_date a) (obs_date b) = true) df.

Fixpoint drop_while {A : Type} (p : A -> bool) (l : list A) : list A :=
  match l with
  | [] => []
  | x :: r => if p x then drop_while p r else l
  end.

Fixpoint take_while {A : Type} (p : A -> bool) (l : list A) : list A :=
  match l with
  | [] => []
  | x :: r => if p x then x :: take_while p r else []
  end.

(** [DataDF[startDate:endDate]], a label slice of a frame whose date index
    ascends: the rows from the first one dated [startDate] or later up to,
    and without, the first one after it dated later than [endDate]. *)
Definition loc_slice (startDate endDate : Date) (df : DataFrame) : DataFrame :=
  take_while (fun r => date_leb (obs_date r) endDate)
             (drop_while (fun r => date_ltb (obs_date r) startDate) df).

(** The rows dated within the closed interval, wherever they stand. *)
Definition in_range (s e : Date) (r : Observation) : bool :=
  date_leb s (obs_date r) && date_leb (obs_date r) e.

(* ================================================================= *)
(** ** ReadData and ClipData *)

(** The Discharge field of a line as [read_csv] meets it: a number, the
    flag [Eqp] (listed in [na_values]), or a blank. *)
Inductive cell : Type :=
| Value (q : Q)
| Eqp
| Blank.

Definition to_float (c : cell) : option Q :=
  match c with
  | Value q => Some q
  | Eqp | Blank => None
  end.

Record RawRecord : Type := mkRaw {
  raw_agency : string;
  raw_site : Z;
  raw_date : Date;
  raw_discharge : cell;
  raw_quality : string
}.

Definition read_csv (lines : list RawRecord) : DataFrame :=
  map (fun l => mkObs (raw_date l) (raw_agency l) (raw_site l)
                      (to_float (raw_discharge l)) (raw_quality l)) lines.

(** [Discharge < 0], False on a null. *)
Definition lt0 (d : option Q) : bool :=
  match d with
  | Some q => negb (Qle_bool 0 q)
  | None => false
  end.

Definition ReadData (lines : list RawRecord) : DataFrame * nat :=
  let DataDF := read_csv lines in
  let DataDF := filter (fun r => negb (lt0 (Discharge r))) DataDF in
  let MissingValues := isna_sum (discharges DataDF) in
  (DataDF, MissingValues).

Definition ClipData (DataDF : DataFrame) (startDate endDate : Date)
  : DataFrame * nat :=
  let DataDF := loc_slice startDate endDate DataDF in
  let MissingValues := isna_sum (discharges DataDF) in
  (DataDF, MissingValues).

(* ================================================================= *)
(** ** Statistics that need a square root *)

Definition has_null (qs : Series) : bool :=
  existsb (fun o => match o with None => true | Some _ => false end) qs.

Definition qlen (xs : list Q) : Q := inject_Z (Z.of_nat (length xs)).

(** [scipy.stats.moment(a, k)]: the mean of the k-th powers of the
    deviations from the mean. *)
Definition moment (k : nat) (xs : list Q) : Q :=
  let mu := series_sum xs / qlen xs in
  series_sum (map (fun x => (x - mu) ^ Z.of_nat k) xs) / qlen xs.

(** [x ** 1.5] for [0 <= x]. *)
Definition pow15 (x : R) : R := (x * sqrt x)%R.

(** [Series.std()] (ddof=1) of a null-free series: null below two values. *)
Definition series_std (xs : list Q) : rval :=
  match xs with
  | [] | [_] => NaN
  | _ =>
      let mu := series_sum xs / qlen xs in
      let ss := series_sum (map (fun x => (x - mu) ^ 2) xs) in
      Fin (sqrt (Q2R (ss / (qlen xs - 1))))
  end.

(** [scipy.stats.skew(a, bias=bias)] with nan_policy='propagate': a null
    in the data makes every moment, and the result, NaN; zero variance
    gives 0; [bias=False] rescales when there are more than two values. *)
Definition skew (bias : bool) (a : Series) : rval :=
  if has_null a then NaN
  else
    let xs := dropna a in
    match xs with
    | [] => NaN
    | _ =>
        let n := qlen xs in
        let m2 := moment 2 xs in
        let m3 := moment 3 xs in
        if Qeq_bool m2 0 then Fin 0%R
        else if negb bias && negb (Qle_bool n 2) && negb (Qle_bool m2 0)
        then Fin (sqrt (Q2R ((n - 1) * n)) / Q2R (n - 2)
                  * Q2R m3 / pow15 (Q2R m2))%R
        else Fin (Q2R m3 / pow15 (Q2R m2))%R
    end.

(** [stats.skew(x)]: the default is [bias=True]. *)
Definition stats_skew (a : Series) : rval := skew true a.

(* ================================================================= *)
(** ** GetAnnualStatistics *)

Record AnnualRow : Type := mkRow {
  col_site_no : Z;
  col_Mean_Flow : fval;
  col_Peak_Flow : fval;
  col_Median : fval;
  col_Coeff_Var : rval;
  col_Skew : rval;
  col_TQmean : fval;
  col_RB_Index : fval;
  col_7Q : fval;
  col_3xMedian : fval
}.

(** [range(1970,2020)]. *)
Definition WYrange : list Z := map (fun k => 1970 + Z.of_nat k)%Z (seq 0 50).

(** [str(WY-1)+"-10-01"] and [str(WY)+"-09-30"] as dates. *)
Definition wy_start (WY : Z) : Date := mkDate (WY - 1) 10 1.
Definition wy_end (WY : Z) : Date := mkDate WY 9 30.

(** [DataDF['Discharge'][str(WY-1)+"-10-01":str(WY)+"-09-30"]]. *)
Definition wy_window (DataDF : DataFrame) (WY : Z) : Series :=
  discharges (loc_slice (wy_start WY) (wy_end WY) DataDF).

(** The assignments of one pass of [for WY in WYrange]. *)
Definition annual_row (site : Z) (w : Series) : result AnnualRow :=
  let mean_flow := series_mean (dropna w) in
  let peak := series_max (dropna w) in
  let med := series_median (dropna w) in
  let cv := xmul (xdiv (series_std (dropna w)) (xmap Q2R mean_flow))
                 (Fin 100%R) in
  let sk := stats_skew w in
  tq <- CalcTqmean w ;;
  rb <- CalcRBindex w ;;
  q7 <- Calc7Q w ;;
  m3x <- CalcExceed3TimesMedian w ;;
  Ok (mkRow site mean_flow peak med cv sk tq rb q7 (of_nat m3x)).

Fixpoint mapM {A B : Type} (f : A -> result B) (l : list A) : result (list B) :=
  match l with
  | [] => Ok []
  | x :: r => y <- f x ;; ys <- mapM f r ;; Ok (y :: ys)
  end.

(** The water year a date belongs to: the year in which its October-to-
    September bin ends. *)
Definition water_year (d : Date) : Z :=
  if (10 <=? month d)%Z then (year d + 1)%Z else year d.

Definition date_min (a b : Date) : Date := if date_leb a b then a else b.
Definition date_max (a b : Date) : Date := if date_leb a b then b else a.

(** [DataDF.resample('AS-OCT').mean().index]: the October firsts that open
    the yearly bins, from the bin of the earliest date through the bin of
    the latest, empty bins included. *)
Definition resample_AS_OCT_index (df : DataFrame) : list Date :=
  match df with
  | [] => []
  | r :: rest =>
      let lo := fold_left date_min (map obs_date rest) (obs_date r) in
      let hi := fold_left date_max (map obs_date rest) (obs_date r) in
      map (fun k => mkDate (water_year lo - 1 + Z.of_nat k) 10 1)
          (seq 0 (Z.to_nat (water_year hi - water_year lo + 1)))
  end.

(** [frame.index = new_index]: the lengths must agree. *)
Definition set_index {I J V : Type} (frame : list (I * V)) (new_index : list J)
  : result (list (J * V)) :=
  if (length frame =? length new_index)%nat
  then Ok (combine new_index (map snd frame))
  else Raise ValueError.

Definition GetAnnualStatistics (DataDF : DataFrame)
  : result (list (Date * AnnualRow)) :=
  site <- match DataDF with
          | [] => Raise IndexError          (* DataDF['site_no'][0] *)
          | r :: _ => Ok (site_no r)
          end ;;
  WYDataDF <- mapM (fun WY => row <- annual_row site (wy_window DataDF WY) ;;
                              Ok (WY, row)) WYrange ;;
  set_index WYDataDF (resample_AS_OCT_index DataDF).

(* ================================================================= *)
(** ** GetAnnualAverages *)

(** The Series [WYDataDF.mean(axis=0)] returns, one mean per column. *)
Record Averages : Type := mkAvg {
  avg_site_no : fval;
  avg_Mean_Flow : fval;
  avg_Peak_Flow : fval;
  avg_Median : fval;
  avg_Coeff_Var : rval;
  avg_Skew : rval;
  avg_TQmean : fval;
  avg_RB_Index : fval;
  avg_7Q : fval;
  avg_3xMedian : fval
}.

Definition GetAnnualAverages (WYDataDF : list (Date * AnnualRow)) : Averages :=
  let rows := map snd WYDataDF in
  let column {A : Type} (f : AnnualRow -> A) := map f rows in
  mkAvg (nanmean (column (fun r => Fin (inject_Z (col_site_no r)))))
        (nanmean (column col_Mean_Flow))
        (nanmean (column col_Peak_Flow))
        (nanmean (column col_Median))
        (nanmean (column col_Coeff_Var))
        (nanmean (column col_Skew))
        (nanmean (column col_TQmean))
        (nanmean (column col_RB_Index))
        (nanmean (column col_7Q))
        (nanmean (column col_3xMedian)).

(* ================================================================= *)
(** ** GetMonthlyStatistics *)

Record MonthlyRow : Type := mkMoRow {
  mo_site_no : Z;
  mo_Mean_Flow : fval;
  mo_Coeff_Var : rval;
  mo_TQmean : fval;
  mo_RB_Index : fval
}.

(** Months counted from year 0, and the first day of a counted month. *)
Definition month_ord (d : Date) : Z := (year d * 12 + (month d - 1))%Z.
Definition month_of_ord (o : Z) : Date := mkDate (o / 12) (o mod 12 + 1) 1.
Definition next_month (m : Date) : Date := month_of_ord (month_ord m + 1).

(** [DataDF.resample('MS').mean().index]: the firsts of the month, from
    the month of the earliest date through the month of the latest, empty
    months included. *)
Definition resample_MS_index (df : DataFrame) : list Date :=
  match df with
  | [] => []
  | r :: rest =>
      let lo := fold_left date_min (map obs_date rest) (obs_date r) in
      let hi := fold_left date_max (map obs_date rest) (obs_date r) in
      map (fun k => month_of_ord (month_ord lo + Z.of_nat k))
          (seq 0 (Z.to_nat (month_ord hi - month_ord lo + 1)))
  end.

(** The rows of one bin of a frame whose date index ascends: from the
    first row dated [lo] or later up to, and without, the first one after
    it dated [hi] or later. *)
Definition bin_slice (lo hi : Date) (df : DataFrame) : DataFrame :=
  take_while (fun r => date_ltb (obs_date r) hi)
             (drop_while (fun r => date_ltb (obs_date r) lo) df).

(** The discharges [DataDF['Discharge'].resample("MS")] hands to a
    reduction for the month labelled [lbl]. *)
Definition month_bin (DataDF : DataFrame) (lbl : Date) : Series :=
  discharges (bin_slice lbl (next_month lbl) DataDF).

(** The entries of the four computed columns for one month. *)
Definition monthly_row (site : Z) (w : Series) : result MonthlyRow :=
  let mean_flow := series_mean (dropna w) in
  let cv := xmul (xdiv (series_std (dropna w)) (xmap Q2R mean_flow))
                 (Fin 100%R) in
  tq <- CalcTqmean w ;;
  rb <- CalcRBindex w ;;
  Ok (mkMoRow site mean_flow cv tq rb).

(** An empty frame stands here for one that kept its date index (what a
    clip that leaves no row returns): the monthly index is empty and the
    site lookup raises.  A frame read from a file without data lines has
    no date index and is refused by [resample] itself; the model does not
    cover it. *)
Definition GetMonthlyStatistics (DataDF : DataFrame)
  : result (list (Date * MonthlyRow)) :=
  let index := resample_MS_index DataDF in
  site <- match DataDF with
          | [] => Raise IndexError          (* DataDF['site_no'][0] *)
          | r :: _ => Ok (site_no r)
          end ;;
  mapM (fun lbl => row <- monthly_row site (month_bin DataDF lbl) ;;
                   Ok (lbl, row)) index.

(* ================================================================= *)
(** ** GetMonthlyAverages *)

Record MonthlyAverage : Type := mkMoAvg {
  moavg_site_no : fval;
  moavg_Mean_Flow : fval;
  moavg_Coeff_Var : rval;
  moavg_TQmean : fval;
  moavg_RB_Index : fval
}.

(** The distinct group keys in ascending order, as [groupby] lists them. *)
Fixpoint insert_key (k : Z) (ks : list Z) : list Z :=
  match ks with
  | [] => [k]
  | x :: r =>
      if (k <? x)%Z then k :: ks
      else if (k =? x)%Z then ks
      else x :: insert_key k r
  end.

Definition group_keys (ks : list Z) : list Z := fold_right insert_key [] ks.

(** [Mo_index = lambda x: x.month]. *)
Definition Mo_index (x : Date) : Z := month x.

(** [MoDataDF.groupby(Mo_index).mean()]: one row per month number met in
    the index, each the column means over the rows of that month. *)
Definition GetMonthlyAverages (MoDataDF : list (Date * MonthlyRow))
  : list (Z * MonthlyAverage) :=
  map (fun m =>
         let rows := map snd (filter (fun p => (Mo_index (fst p) =? m)%Z) MoDataDF) in
         let column {A : Type} (f : MonthlyRow -> A) := map f rows in
         (m, mkMoAvg (nanmean (column (fun r => Fin (inject_Z (mo_site_no r)))))
                     (nanmean (column mo_Mean_Flow))
                     (nanmean (column mo_Coeff_Var))
                     (nanmean (column mo_TQmean))
                     (nanmean (column mo_RB_Index))))
      (group_keys (map (fun p => Mo_index (fst p)) MoDataDF)).

(* ================================================================= *)
(** ** The run over one dataset *)

(** What the main loop computes for one file, the printing and the
    writing of reports left out: read, clip to water years 1970-2019,
    annual table and averages, monthly table and averages. *)
Record Outputs : Type := mkOutputs {
  out_DataDF : DataFrame;
  out_MissingValues : nat;
  out_WYDataDF : list (Date * AnnualRow);
  out_AnnualAverages : Averages;
  out_MoDataDF : list (Date * MonthlyRow);
  out_MonthlyAverages : list (Z * MonthlyAverage)
}.

Definition clip_start : Date := mkDate 1969 10 1.
Definition clip_end : Date := mkDate 2019 9 30.

Definition process_dataset (lines : list RawRecord) : result Outputs :=
  let '(DataDF, MissingValues) := ReadData lines in
  let '(DataDF, MissingValues) := ClipData DataDF clip_start clip_end in
  WYDataDF <- GetAnnualStatistics DataDF ;;
  let AnnualAverages := GetAnnualAverages WYDataDF in
  MoDataDF <- GetMonthlyStatistics DataDF ;;
  let MonthlyAverages := GetMonthlyAverages MoDataDF in
  Ok (mkOutputs DataDF MissingValues WYDataDF AnnualAverages
                MoDataDF MonthlyAverages).

(* ================================================================= *)
(** ** Double precision *)

(** The exponent of the greatest power of two that is at most a positive
    rational: [2^e <= a < 2^(e+1)]. *)
Definition ilog2 (a : Q) : Z :=
  let e := (Z.log2 (Qnum a) - Z.log2 (Zpos (Qden a)))%Z in
  if Qle_bool (2 ^ e) a then e else (e - 1)%Z.

(** The integer nearest to a rational, the even one at a tie. *)
Definition nearest_even (m : Q) : Z :=
  let f := Qfloor m in
  match Qcompare (m - inject_Z f) (1 # 2) with
  | Lt => f
  | Gt => (f + 1)%Z
  | Eq => if Z.even f then f else (f + 1)%Z
  end.

(** The double nearest to a rational number (IEEE 754 binary64, rounding
    to nearest, ties to even): 53 significant bits, a spacing of at least
    [2^-1074] (subnormal numbers), an infinity from [2^1024] on.  The
    result is a reduced fraction, and a zero carries no sign. *)
Definition round64 (q : Q) : fval :=
  let q := Qred q in
  match Qcompare q 0 with
  | Eq => Fin 0
  | c =>
      let a := Qabs q in
      let k := Z.max (ilog2 a - 52) (-1074) in
      let n := nearest_even (a / 2 ^ k) in
      let r := Qred (inject_Z n * 2 ^ k) in
      if Qle_bool (2 ^ 1024) r
      then match c with Gt => PInf | _ => NInf end
      else Fin (match c with Gt => r | _ => - r end)
  end.

(** An arithmetic result as it is stored in a double. *)
Definition f64 (v : fval) : fval :=
  match v with
  | Fin q => round64 q
  | _ => v
  end.

Definition add64 (a b : fval) : fval := f64 (xadd a b).
Definition mul64 (a b : fval) : fval := f64 (xmul a b).
Definition div64 (a b : fval) : fval := f64 (xdiv a b).

(** [Series.sum()] and [Series.mean()] of a null-free series of doubles
    when the sum is accumulated from the first entry to the last, one
    rounded addition per entry, and then divided by the count.  This is
    the order of summation for fewer than eight entries; for longer
    series numpy adds in blocks, which can change the last bits of the
    sum. *)
Definition sum64 (xs : list Q) : fval :=
  fold_left (fun acc x => add64 acc (Fin x)) xs (Fin 0).

Definition mean64 (xs : list Q) : fval :=
  match xs with
  | [] => NaN
  | _ => div64 (sum64 xs) (of_nat (length xs))
  end.

(** [CalcTqmean] on doubles.  [mean] is [Series.mean()], a double close
    to the arithmetic mean whose last bits depend on the order in which
    the library adds; the comparison [Qvalues > mean] is exact on the
    doubles it is given, and the quotient of the two counts is rounded. *)
Definition CalcTqmean_f64 (mean : list Q -> fval) (Qvalues : Series)
  : result fval :=
  let Qvalues := dropna Qvalues in
  let T := length Qvalues in
  let Tqmean := div64 (of_nat (count_gt (mean Qvalues) Qvalues)) (of_nat T) in
  Ok Tqmean.

(** [Series.median()] on doubles: the middle value of the sorted data,
    or the two middle values added and halved, each step rounded. *)
Definition median64 (xs : list Q) : fval :=
  let s := QSort.sort xs in
  let n := length s in
  match n with
  | O => NaN
  | _ =>
      if Nat.even n
      then div64 (add64 (Fin (nth (n / 2 - 1) s 0)) (Fin (nth (n / 2) s 0)))
                 (Fin 2)
      else Fin (nth (n / 2) s 0)
  end.

(** [CalcExceed3TimesMedian] on doubles: the product [3*median] is
    rounded before the values are compared with it. *)
Definition CalcExceed3TimesMedian_f64 (Qvalues : Series) : result nat :=
  let Qvalues := dropna Qvalues in
  let median3x := count_gt (mul64 (Fin 3) (median64 Qvalues)) Qvalues in
  Ok median3x.

(* ================================================================= *)
(** ** Reference notions used in the statements *)

(** Arithmetic mean of a non-empty list. *)
Definition mean_of (xs : list Q) : Q := series_sum xs / qlen xs.

(** The entries strictly greater than a threshold. *)
Definition strictly_above (m : Q) (xs : list Q) : list Q :=
  filter (fun v => if Qlt_le_dec m v then true else false) xs.

(** Sum of the absolute differences of neighbours. *)
Fixpoint pathlength (xs : list Q) : Q :=
  match xs with
  | a :: (b :: _) as r => Qabs (b - a) + pathlength r
  | _ => 0
  end.

(** The middle of a sorted list: its central entry, or the mean of the
    two central entries. *)
Definition middle (s : list Q) : Q :=
  let n := length s in
  if Nat.even n
  then (nth (n / 2 - 1) s 0 + nth (n / 2) s 0) / 2
  else nth (n / 2) s 0.

(** [m] is the median of [xs]: the middle of [xs] put in ascending order. *)
Definition is_median (m : Q) (xs : list Q) : Prop :=
  exists s : list Q,
    Permutation s xs /\ StronglySorted Qle s /\ m == middle s.

(** How many entries lie strictly below, and how many at or below, [v]. *)
Definition count_below (v : Q) (l : list Q) : nat :=
  length (filter (fun x => negb (Qle_bool v x)) l).
Definition count_upto (v : Q) (l : list Q) : nat :=
  length (filter (fun x => Qle_bool x v) l).

(** A row whose discharge is null. *)
Definition is_null_row (r : Observation) : bool :=
  match Discharge r with
  | None => true
  | Some _ => false
  end.

(** Sample data. *)
Definition gauge (y m d : Z) (q : option Q) : Observation :=
  mkObs (mkDate y m d) "USGS" 3335000 q "A".

Definition sample_frame : DataFrame :=
  [ gauge 1969 10 1 (Some 12); gauge 1969 10 2 None;
    gauge 1970 9 30 (Some 7); gauge 1970 10 1 (Some 9);
    gauge 2019 9 30 (Some 4) ].

(** The finite entries of a column. *)
Fixpoint finite_values {A : Type} (col : list (ext A)) : list A :=
  match col with
  | [] => []
  | Fin a :: r => a :: finite_values r
  | _ :: r => finite_values r
  end.

(** A column that holds finite numbers and nulls only. *)
Definition finite_or_null {A : Type} (col : list (ext A)) : Prop :=
  Forall (fun v => v = NaN \/ exists a : A, v = Fin a) col.

(** The columns of the annual table next to their averages: those that
    hold rationals, and those that hold reals. *)
Definition fcolumns : list ((AnnualRow -> fval) * (Averages -> fval)) :=
  [ (fun r => Fin (inject_Z (col_site_no r)), avg_site_no);
    (col_Mean_Flow, avg_Mean_Flow);
    (col_Peak_Flow, avg_Peak_Flow);
    (col_Median, avg_Median);
    (col_TQmean, avg_TQmean);
    (col_RB_Index, avg_RB_Index);
    (col_7Q, avg_7Q);
    (col_3xMedian, avg_3xMedian) ].

Definition rcolumns : list ((AnnualRow -> rval) * (Averages -> rval)) :=
  [ (col_Coeff_Var, avg_Coeff_Var); (col_Skew, avg_Skew) ].

(** Sum and arithmetic mean of real numbers. *)
Definition Rsum (l : list R) : R := fold_right Rplus 0%R l.
Definition Rmean (l : list R) : R := (Rsum l / INR (length l))%R.

(** The k-th central moment: the mean of the k-th powers of the
    deviations from the mean. *)
Definition central_moment (k : nat) (l : list R) : R :=
  (Rsum (map (fun x => (x - Rmean l) ^ k) l) / INR (length l))%R.

(** The Fisher-Pearson coefficient of skewness, g1 = m3 / m2^(3/2). *)
Definition fisher_pearson (l : list R) : R :=
  (central_moment 3 l / sqrt (central_moment 2 l) ^ 3)%R.

(** The adjusted Fisher-Pearson coefficient,
    G1 = sqrt(n(n-1)) / (n-2) * g1. *)
Definition adjusted_fisher_pearson (l : list R) : R :=
  let n := INR (length l) in
  (sqrt (n * (n - 1)) / (n - 2) * fisher_pearson l)%R.

(** A window of four discharges without a null. *)
Definition skewed_window : Series := [Some 0; Some 2; Some 2; Some 8].

(** A calendar date, as far as the water-year windows are concerned:
    months 1 to 12, days 1 to 31, and September has 30 days. *)
Definition calendar_date (d : Date) : Prop :=
  (1 <= month d <= 12 /\ 1 <= day d <= 31 /\ (month d = 9 -> day d <= 30))%Z.

(** A series of equal discharges with a gap. *)
Definition steady_series : Series := [Some 4; Some 4; None; Some 4].

(** A series with one flood day and a gap. *)
Definition flood_series : Series := [Some 1; Some 1; None; Some 1; Some 5].

(** The first row of the sample frame. *)
Definition sample_first : Observation := gauge 1969 10 1 (Some 12).

(** The twelve month numbers. *)
Definition month_numbers : list Z := [1; 2; 3; 4; 5; 6; 7; 8; 9; 10; 11; 12]%Z.

(** Three lines of a gauge file: a value, a flagged day, a value. *)
Definition sample_lines : list RawRecord :=
  [ mkRaw "USGS" 3335000 (mkDate 1969 10 1) (Value 12) "A";
    mkRaw "USGS" 3335000 (mkDate 1969 10 2) Eqp "A";
    mkRaw "USGS" 3335000 (mkDate 2019 9 30) (Value 4) "A" ].

(** The rational columns of the monthly table next to their averages. *)
Definition mo_fcolumns
  : list ((MonthlyRow -> fval) * (MonthlyAverage -> fval)) :=
  [ (fun r => Fin (inject_Z (mo_site_no r)), moavg_site_no);
    (mo_Mean_Flow, moavg_Mean_Flow);
    (mo_TQmean, moavg_TQmean);
    (mo_RB_Index, moavg_RB_Index) ].

(** The middle of a sorted list of doubles, computed in doubles. *)
Definition middle64 (s : list Q) : fval :=
  let n := length s in
  match n with
  | O => NaN
  | _ =>
      if Nat.even n
      then div64 (add64 (Fin (nth (n / 2 - 1) s 0)) (Fin (nth (n / 2) s 0)))
                 (Fin 2)
      else Fin (nth (n / 2) s 0)
  end.

(** The double a decimal number is stored as (finite range). *)
Definition double (q : Q) : Q :=
  match round64 q with
  | Fin d => d
  | _ => 0
  end.

(** Six days of discharge 0.1. *)
Definition tenth_series : Series := repeat (Some (double (1 # 10))) 6.

(** Three days of discharge 0.9 and one of 2.7. *)
Definition spate_series : Series :=
  [Some (double (9 # 10)); Some (double (9 # 10)); Some (double (9 # 10));
   Some (double (27 # 10))].

(** A frame that spans fifty water years, from 1960 on. *)
Definition early_frame : DataFrame :=
  [ gauge 1959 10 1 (Some 5); gauge 2009 9 30 (Some 7) ].

(* ================================================================= *)
(** * Properties *)

(** ** Extended numbers *)

#[export] Instance feq_Equivalence : Equivalence feq.
Proof.
  split.
  - intros [q | | | ]; simpl; auto with qarith.
  - intros [q | | | ] [r | | | ]; simpl; auto with qarith.
  - intros [q | | | ] [r | | | ] [t | | | ]; simpl; try tauto.
    intros ? ?; etransitivity; eassumption.
Qed.

Lemma xdiv_feq (a a' b b' : Q) :
  a == a' -> b == b' -> xdiv (Fin a) (Fin b) =f= xdiv (Fin a') (Fin b').
Proof.
  intros Ha Hb. unfold xdiv, nsign, ndiv, Num_Q.
  rewrite Ha, Hb.
  destruct (b' ?= 0); [destruct (a' ?= 0) | | ]; simpl; auto;
    rewrite Ha, Hb; reflexivity.
Qed.

Lemma xdiv_pos (a b : Q) : 0 < b -> xdiv (Fin a) (Fin b) = Fin (a / b).
Proof.
  intros Hb. unfold xdiv, nsign, ndiv, Num_Q.
  apply Qgt_alt in Hb. rewrite Hb. reflexivity.
Qed.

Lemma qlen_pos (xs : list Q) : xs <> [] -> 0 < qlen xs.
Proof.
  intros Hne. unfold qlen. destruct xs as [| x r]; [congruence |].
  replace 0 with (inject_Z 0) by reflexivity. rewrite <- Zlt_Qlt.
  simpl length. lia.
Qed.

Lemma of_nat_Q (n : nat) : (of_nat n : fval) = Fin (inject_Z (Z.of_nat n)).
Proof. reflexivity. Qed.

(** ** Series *)

Lemma gt_Fin (m x : Q) : gt (Fin m) x = if Qlt_le_dec m x then true else false.
Proof.
  unfold gt. destruct (Qlt_le_dec m x) as [L | L].
  - destruct (Qle_bool x m) eqn:E; [| reflexivity].
    apply Qle_bool_iff in E. exfalso. apply (Qlt_not_le _ _ L E).
  - apply Qle_bool_iff in L. rewrite L. reflexivity.
Qed.

Lemma count_gt_Fin (m : Q) (xs : list Q) :
  count_gt (Fin m) xs = length (strictly_above m xs).
Proof.
  unfold count_gt, strictly_above. f_equal. apply filter_ext.
  intros x. apply gt_Fin.
Qed.

Lemma series_mean_Fin (xs : list Q) :
  xs <> [] -> series_mean xs = Fin (mean_of xs).
Proof. destruct xs; [congruence | reflexivity]. Qed.

Lemma filter_length_le {A : Type} (p : A -> bool) (l : list A) :
  (length (filter p l) <= length l)%nat.
Proof.
  induction l as [| x r IH]; simpl; [lia |].
  destruct (p x); simpl; lia.
Qed.

(** ** CalcRBindex *)

Lemma series_get_app (p r : list Q) (a : Q) :
  series_get (p ++ a :: r) (length p) = Ok a.
Proof.
  unfold series_get. rewrite nth_error_app2 by lia.
  rewrite Nat.sub_diag. reflexivity.
Qed.

Lemma series_get_next (p r : list Q) (a b : Q) :
  series_get (p ++ a :: b :: r) (length p + 1) = Ok b.
Proof.
  replace (p ++ a :: b :: r) with ((p ++ [a]) ++ b :: r)
    by (rewrite <- app_assoc; reflexivity).
  replace (length p + 1)%nat with (length (p ++ [a]))
    by (rewrite length_app; reflexivity).
  apply series_get_app.
Qed.

(** The loop never leaves the data, and adds up the path length. *)
Lemma rb_loop_pathlength (r p : list Q) (a acc : Q) :
  exists s : Q,
    rb_loop (p ++ a :: r) (seq (length p) (length r)) acc = Ok s /\
    s == acc + pathlength (a :: r).
Proof.
  revert p a acc. induction r as [| b r IH]; intros p a acc.
  - exists acc. split; [reflexivity | simpl; ring].
  - cbn [length seq rb_loop].
    rewrite series_get_next. cbn [bind].
    rewrite series_get_app. cbn [bind].
    destruct (IH (p ++ [a]) b (acc + Qabs (b - a))) as [s [Hs Heq]].
    exists s. split.
    + replace (S (length p)) with (length (p ++ [a]))
        by (rewrite length_app; simpl; lia).
      rewrite <- app_assoc in Hs. exact Hs.
    + rewrite Heq. cbn [pathlength]. ring.
Qed.

Lemma rb_loop_total (xs : list Q) :
  exists s : Q,
    rb_loop xs (seq 0 (length xs - 1)) 0 = Ok s /\ s == pathlength xs.
Proof.
  destruct xs as [| a r].
  - exists 0. split; reflexivity.
  - destruct (rb_loop_pathlength r [] a 0) as [s [Hs Heq]].
    exists s. split.
    + replace (length (a :: r) - 1)%nat with (length r) by (simpl; lia).
      exact Hs.
    + rewrite Heq. ring.
Qed.

Lemma CalcRBindex_ratio (Qvalues : Series) :
  exists v : fval,
    CalcRBindex Qvalues = Ok v /\
    v =f= xdiv (Fin (pathlength (dropna Qvalues)))
               (Fin (series_sum (dropna Qvalues))).
Proof.
  unfold CalcRBindex.
  destruct (rb_loop_total (dropna Qvalues)) as [s [Hs Heq]].
  rewrite Hs. cbn [bind]. eexists. split; [reflexivity |].
  apply xdiv_feq; [exact Heq | reflexivity].
Qed.

Lemma pathlength_nonneg (xs : list Q) : 0 <= pathlength xs.
Proof.
  induction xs as [| a [| b r] IH]; cbn [pathlength]; try apply Qle_refl.
  replace 0 with (0 + 0) at 1 by reflexivity.
  apply Qplus_le_compat; [apply Qabs_nonneg | exact IH].
Qed.

(** C2, as the code has it: the path length over the sum, the nulls
    removed first and the rest taken as contiguous; one value [x] gives 0
    unless [x] is 0; [10,20] gives 1/3. *)
Theorem CalcRBindex_spec :
  (forall Qvalues : Series,
      exists v : fval,
        CalcRBindex Qvalues = Ok v /\
        v =f= xdiv (Fin (pathlength (dropna Qvalues)))
                   (Fin (series_sum (dropna Qvalues)))) /\
  (forall x : Q, ~ x == 0 ->
      exists v : fval, CalcRBindex [Some x] = Ok v /\ v =f= Fin 0) /\
  (exists v : fval,
      CalcRBindex [Some 10; Some 20] = Ok v /\ v =f= Fin (1 # 3)).
Proof.
  split; [exact CalcRBindex_ratio | split].
  - intros x Hx. eexists. split; [reflexivity |].
    unfold xdiv, nsign, ndiv, Num_Q, series_sum. simpl.
    assert (E : (0 + x ?= 0) <> Eq).
    { intros E. apply Qeq_alt in E. apply Hx. rewrite <- E. ring. }
    destruct (0 + x ?= 0); [congruence | |]; simpl; unfold Qdiv; ring.
  - eexists. split; [reflexivity | reflexivity].
Qed.

Lemma CalcRBindex_spec_witness :
  exists v : fval, CalcRBindex [Some 5] = Ok v /\ v =f= Fin 0.
Proof.
  apply (proj1 (proj2 CalcRBindex_spec) 5).
  intros H. discriminate H.
Defined.

(** C2, the case the code does not have: a single value 0 gives 0/0. *)
Lemma CalcRBindex_single_zero :
  CalcRBindex [Some 0] = Ok NaN /\
  ~ (exists v : fval, CalcRBindex [Some 0] = Ok v /\ v =f= Fin 0).
Proof.
  split; [reflexivity |].
  intros [v [H Hv]]. vm_compute in H. injection H as <-. exact Hv.
Qed.

(** ** Calc7Q *)

Lemma dropna_app (a b : Series) : dropna (a ++ b) = dropna a ++ dropna b.
Proof.
  induction a as [| [q |] a IH]; simpl; [reflexivity | f_equal; exact IH | exact IH].
Qed.

Section Rolling.
Variable w : nat.
Variable xs : list Q.

Let cell_at (i : nat) : option Q :=
  if (i + 1 <? w)%nat then None
  else Some (series_sum (firstn w (skipn (i + 1 - w) xs))
             / inject_Z (Z.of_nat w)).

(** While the window is not full the rolling mean is null. *)
Lemma rolling_prefix_null (m a : nat) :
  (a + m < w)%nat -> dropna (map cell_at (seq a m)) = [].
Proof.
  revert a. induction m as [| m IH]; intros a Hlt; [reflexivity |].
  cbn [seq map]. unfold cell_at at 1.
  destruct (Nat.ltb_spec (a + 1) w) as [_ | Hge]; [| lia].
  cbn [dropna]. apply IH. lia.
Qed.

(** From the first full window on, entry [i] is the mean of the window
    that starts at [i + 1 - w]. *)
Lemma rolling_full_windows (m a : nat) :
  (w <= a + 1)%nat ->
  dropna (map cell_at (seq a m))
  = map (fun k => series_sum (firstn w (skipn k xs)) / inject_Z (Z.of_nat w))
        (seq (a + 1 - w) m).
Proof.
  revert a. induction m as [| m IH]; intros a Hle; [reflexivity |].
  cbn [seq map]. unfold cell_at at 1.
  destruct (Nat.ltb_spec (a + 1) w) as [Hlt | _]; [lia |].
  cbn [dropna]. f_equal.
  replace (S (a + 1 - w)) with (S a + 1 - w)%nat by lia.
  apply IH. lia.
Qed.

Lemma rolling_mean_windows :
  (0 < w)%nat ->
  dropna (rolling_mean w xs)
  = map (fun k => series_sum (firstn w (skipn k xs)) / inject_Z (Z.of_nat w))
        (seq 0 (length xs + 1 - w)).
Proof.
  intros Hw. unfold rolling_mean. fold cell_at.
  destruct (Nat.lt_ge_cases (length xs) w) as [Hshort | Hlong].
  - rewrite rolling_prefix_null by lia.
    replace (length xs + 1 - w)%nat with 0%nat by lia. reflexivity.
  - replace (length xs) with ((w - 1) + (length xs + 1 - w))%nat at 1 by lia.
    rewrite seq_app, map_app, dropna_app.
    rewrite rolling_prefix_null by lia.
    rewrite rolling_full_windows by lia.
    cbn [app]. replace (0 + (w - 1) + 1 - w)%nat with 0%nat by lia.
    reflexivity.
Qed.
End Rolling.

(** The running minimum is a lower bound of the data and one of them. *)
Lemma fold_min_spec (r : list Q) (x : Q) :
  (fold_left Qmin r x <= x /\ Forall (fun y => fold_left Qmin r x <= y) r) /\
  (fold_left Qmin r x == x \/ Exists (fun y => fold_left Qmin r x == y) r).
Proof.
  revert x. induction r as [| y r IH]; intros x; cbn [fold_left].
  - split; [split; [apply Qle_refl | constructor] | left; reflexivity].
  - destruct (IH (Qmin x y)) as [[Hle Hall] Hin].
    split; [split |].
    + eapply Qle_trans; [exact Hle | apply Q.le_min_l].
    + constructor; [| exact Hall].
      eapply Qle_trans; [exact Hle | apply Q.le_min_r].
    + destruct Hin as [Heq | Hex].
      * destruct (Q.min_dec x y) as [E | E].
        -- left. rewrite Heq. exact E.
        -- right. constructor. rewrite Heq. exact E.
      * right. apply Exists_cons_tl. exact Hex.
Qed.

(** C3: [Calc7Q] is the least mean of seven consecutive entries of the
    null-removed series: NaN when fewer than seven values remain,
    otherwise the mean of some window and no greater than the mean of any;
    [1,2,3,4,5,6,7] gives 4. *)
Theorem Calc7Q_least_window_mean :
  (forall Qvalues : Series,
      (length (dropna Qvalues) < 7)%nat -> Calc7Q Qvalues = Ok NaN) /\
  (forall Qvalues : Series,
      (7 <= length (dropna Qvalues))%nat ->
      exists m : Q,
        Calc7Q Qvalues = Ok (Fin m) /\
        (exists k : nat,
            (k + 7 <= length (dropna Qvalues))%nat /\
            m == mean_of (firstn 7 (skipn k (dropna Qvalues)))) /\
        (forall k : nat,
            (k + 7 <= length (dropna Qvalues))%nat ->
            m <= mean_of (firstn 7 (skipn k (dropna Qvalues))))) /\
  (exists v : fval,
      Calc7Q [Some 1; Some 2; Some 3; Some 4; Some 5; Some 6; Some 7] = Ok v /\
      v =f= Fin 4).
Proof.
  assert (Hmean : forall (xs : list Q) (k : nat),
             (k + 7 <= length xs)%nat ->
             series_sum (firstn 7 (skipn k xs)) / inject_Z (Z.of_nat 7)
             = mean_of (firstn 7 (skipn k xs))).
  { intros xs k Hk. unfold mean_of, qlen.
    rewrite firstn_length_le by (rewrite length_skipn; lia). reflexivity. }
  split; [| split].
  - intros Qvalues Hshort. unfold Calc7Q.
    rewrite rolling_mean_windows by lia.
    replace (length (dropna Qvalues) + 1 - 7)%nat with 0%nat by lia.
    reflexivity.
  - intros Qvalues Hlong. unfold Calc7Q.
    rewrite rolling_mean_windows by lia.
    set (xs := dropna Qvalues) in *.
    set (g := fun k => series_sum (firstn 7 (skipn k xs)) / inject_Z (Z.of_nat 7)).
    replace (length xs + 1 - 7)%nat with (S (length xs - 7)) by lia.
    cbn [seq map series_min].
    set (rest := map g (seq 1 (length xs - 7))).
    destruct (fold_min_spec rest (g 0%nat)) as [[Hle Hall] Hin].
    exists (fold_left Qmin rest (g 0%nat)). split; [reflexivity | split].
    + destruct Hin as [Heq | Hex].
      * exists 0%nat. split; [lia |]. rewrite Heq. unfold g.
        rewrite Hmean by lia. reflexivity.
      * apply Exists_exists in Hex. destruct Hex as [y [Hy Heq]].
        apply in_map_iff in Hy. destruct Hy as [k [<- Hk]].
        apply in_seq in Hk. exists k. split; [lia |].
        rewrite Heq. unfold g. rewrite Hmean by lia. reflexivity.
    + intros k Hk. rewrite <- Hmean by exact Hk. fold (g k).
      destruct k as [| k]; [exact Hle |].
      rewrite Forall_forall in Hall. apply Hall.
      apply in_map_iff. exists (S k). split; [reflexivity |].
      apply in_seq. lia.
  - eexists. split; [reflexivity | reflexivity].
Qed.

Lemma Calc7Q_least_window_mean_witness :
  Calc7Q [Some 3; None; Some 1] = Ok NaN /\
  exists m : Q,
    Calc7Q [Some 9; Some 2; Some 3; Some 4; Some 5; Some 6; Some 7; Some 8]
    = Ok (Fin m) /\
    (exists k : nat,
        (k + 7 <= 8)%nat /\
        m == mean_of (firstn 7 (skipn k [9; 2; 3; 4; 5; 6; 7; 8]))) /\
    (forall k : nat,
        (k + 7 <= 8)%nat ->
        m <= mean_of (firstn 7 (skipn k [9; 2; 3; 4; 5; 6; 7; 8]))).
Proof.
  split.
  - apply (proj1 Calc7Q_least_window_mean [Some 3; None; Some 1]).
    simpl. lia.
  - apply (proj1 (proj2 Calc7Q_least_window_mean)
             [Some 9; Some 2; Some 3; Some 4; Some 5; Some 6; Some 7; Some 8]).
    simpl. lia.
Defined.

(** ** Order statistics and the median *)

Lemma filter_length_perm {A : Type} (p : A -> bool) (l l' : list A) :
  Permutation l l' -> length (filter p l) = length (filter p l').
Proof.
  induction 1 as [| x l l' _ IH | x y l | l l' l'' _ IH1 _ IH2]; simpl.
  - reflexivity.
  - destruct (p x); simpl; congruence.
  - destruct (p x), (p y); reflexivity.
  - congruence.
Qed.

Lemma filter_length_mono {A : Type} (p q : A -> bool) (l : list A) :
  (forall x, p x = true -> q x = true) ->
  (length (filter p l) <= length (filter q l))%nat.
Proof.
  intros Himp. induction l as [| x r IH]; simpl; [lia |].
  destruct (p x) eqn:Px.
  - rewrite (Himp x Px). simpl. lia.
  - destruct (q x); simpl; lia.
Qed.

Lemma filter_none {A : Type} (p : A -> bool) (l : list A) :
  Forall (fun x => p x = false) l -> filter p l = [].
Proof.
  induction 1 as [| x r Hx _ IH]; simpl; [reflexivity |].
  rewrite Hx. exact IH.
Qed.

Lemma Qle_bool_false (x y : Q) : Qle_bool x y = false <-> y < x.
Proof.
  split; intros H.
  - apply Qnot_le_lt. intros L. apply Qle_bool_iff in L. congruence.
  - destruct (Qle_bool x y) eqn:E; [| reflexivity].
    apply Qle_bool_iff in E. exfalso. apply (Qlt_not_le _ _ H E).
Qed.

(** In a sorted list the entry at position [k] has at most [k] entries
    strictly below it and more than [k] entries at or below it. *)
Lemma sorted_rank (s : list Q) :
  StronglySorted Qle s ->
  forall k : nat, (k < length s)%nat ->
    (count_below (nth k s 0%Q) s <= k < count_upto (nth k s 0%Q) s)%nat.
Proof.
  induction 1 as [| a t Hs IH Ha]; intros k Hk; [simpl in Hk; lia |].
  unfold count_below, count_upto in *.
  destruct k as [| k]; cbn [nth filter].
  - assert (E1 : Qle_bool a a = true) by (apply Qle_bool_iff, Qle_refl).
    rewrite E1. cbn [negb length].
    rewrite filter_none; [simpl; lia |].
    eapply Forall_impl; [| exact Ha].
    intros x Hx. simpl. apply Qle_bool_iff in Hx. rewrite Hx. reflexivity.
  - simpl in Hk. assert (Hk' : (k < length t)%nat) by lia.
    specialize (IH k Hk').
    assert (Hav : a <= nth k t 0).
    { rewrite Forall_forall in Ha. apply Ha. apply nth_In. exact Hk'. }
    apply Qle_bool_iff in Hav. rewrite Hav. cbn [length].
    destruct (negb (Qle_bool (nth k t 0) a)); cbn [length]; lia.
Qed.

(** Two values with the same rank in the same data are equal. *)
Lemma rank_unique (xs : list Q) (k : nat) (v v' : Q) :
  (count_below v xs <= k < count_upto v xs)%nat ->
  (count_below v' xs <= k < count_upto v' xs)%nat ->
  v == v'.
Proof.
  assert (Hone : forall a b : Q, a < b ->
             (count_upto a xs <= count_below b xs)%nat).
  { intros a b Hab. apply filter_length_mono. intros x Hx.
    apply Qle_bool_iff in Hx. apply negb_true_iff, Qle_bool_false.
    eapply Qle_lt_trans; eassumption. }
  intros [H1 H2] [H3 H4].
  destruct (Q_dec v v') as [[L | L] | E]; [| | exact E].
  - specialize (Hone v v' L). lia.
  - specialize (Hone v' v L). lia.
Qed.

Lemma sorted_perm_nth (s s' : list Q) (k : nat) :
  StronglySorted Qle s -> StronglySorted Qle s' -> Permutation s s' ->
  (k < length s)%nat -> nth k s 0 == nth k s' 0.
Proof.
  intros Hs Hs' Hp Hk.
  assert (Hk' : (k < length s')%nat) by (rewrite <- (Permutation_length Hp); exact Hk).
  pose proof (sorted_rank Hs Hk) as R.
  pose proof (sorted_rank Hs' Hk') as R'.
  unfold count_below, count_upto in R'.
  rewrite <- !(filter_length_perm _ Hp) in R'.
  eapply rank_unique; [exact R | exact R'].
Qed.

Lemma Qle_bool_trans : Transitive (fun x y : Q => is_true (Qle_bool x y)).
Proof.
  intros x y z Hxy Hyz. unfold is_true in *.
  rewrite Qle_bool_iff in *. eapply Qle_trans; eassumption.
Qed.

Lemma sort_sorted (xs : list Q) : StronglySorted Qle (QSort.sort xs).
Proof.
  pose proof (QSort.StronglySorted_sort xs Qle_bool_trans) as H.
  induction H as [| a l _ IH Ha]; constructor; [exact IH |].
  eapply Forall_impl; [| exact Ha].
  intros x Hx. apply Qle_bool_iff. exact Hx.
Qed.

Lemma sort_median (xs : list Q) : is_median (middle (QSort.sort xs)) xs.
Proof.
  exists (QSort.sort xs). split; [| split].
  - apply Permutation_sym, QSort.Permuted_sort.
  - apply sort_sorted.
  - reflexivity.
Qed.

Lemma series_median_middle (xs : list Q) :
  xs <> [] -> series_median xs = Fin (middle (QSort.sort xs)).
Proof.
  intros Hne. unfold series_median, middle.
  pose proof (Permutation_length (QSort.Permuted_sort xs)) as Hlen.
  destruct (QSort.sort xs) as [| a t]; [| cbv zeta].
  - destruct xs; [congruence | discriminate Hlen].
  - destruct (Nat.even (length (a :: t))); reflexivity.
Qed.

Lemma strictly_above_Qeq (m m' : Q) (xs : list Q) :
  m == m' -> strictly_above m xs = strictly_above m' xs.
Proof.
  intros E. unfold strictly_above. apply filter_ext. intros x.
  destruct (Qlt_le_dec m x) as [L | L], (Qlt_le_dec m' x) as [L' | L'];
    try reflexivity; exfalso.
  - rewrite E in L. apply (Qlt_not_le _ _ L L').
  - rewrite <- E in L'. apply (Qlt_not_le _ _ L' L).
Qed.

(** ** No metric raises *)

Lemma Qeq_bool_zero (a b : Q) : a == b -> Qeq_bool a 0 = Qeq_bool b 0.
Proof.
  intros E. destruct (Qeq_bool a 0) eqn:A, (Qeq_bool b 0) eqn:B; try reflexivity.
  - apply Qeq_bool_iff in A. rewrite E in A. apply Qeq_bool_iff in A. congruence.
  - apply Qeq_bool_iff in B. rewrite <- E in B. apply Qeq_bool_iff in B. congruence.
Qed.

Lemma xdiv_zero_divisor (a b : Q) :
  b == 0 -> 0 <= a ->
  xdiv (Fin a) (Fin b) = if Qeq_bool a 0 then NaN else PInf.
Proof.
  intros Hb Ha. unfold xdiv, nsign, Num_Q.
  apply Qeq_alt in Hb. rewrite Hb.
  destruct (Qeq_bool a 0) eqn:E.
  - apply Qeq_bool_iff, Qeq_alt in E. rewrite E. reflexivity.
  - destruct (a ?= 0) eqn:C.
    + apply Qeq_alt, Qeq_bool_iff in C. congruence.
    + apply Qlt_alt in C. exfalso. apply (Qlt_not_le _ _ C Ha).
    + reflexivity.
Qed.

(** C7, as the code has it: none of the four metrics raises, whatever the
    series.  With no non-null value [CalcTqmean], [CalcRBindex] and
    [Calc7Q] return NaN and [CalcExceed3TimesMedian] returns the count 0.
    A zero sum divides to NaN in [CalcRBindex] when the path length is 0
    too, and to +inf otherwise. *)
Theorem MetricSet_never_raises (Qvalues : Series) :
  (exists v : fval, CalcTqmean Qvalues = Ok v) /\
  (exists v : fval, CalcRBindex Qvalues = Ok v) /\
  (exists v : fval, Calc7Q Qvalues = Ok v) /\
  (exists c : nat, CalcExceed3TimesMedian Qvalues = Ok c) /\
  (dropna Qvalues = [] ->
   CalcTqmean Qvalues = Ok NaN /\
   CalcRBindex Qvalues = Ok NaN /\
   Calc7Q Qvalues = Ok NaN /\
   CalcExceed3TimesMedian Qvalues = Ok 0%nat) /\
  (series_sum (dropna Qvalues) == 0 ->
   CalcRBindex Qvalues
   = Ok (if Qeq_bool (pathlength (dropna Qvalues)) 0 then NaN else PInf)).
Proof.
  split; [eexists; reflexivity |].
  split; [destruct (CalcRBindex_ratio Qvalues) as [v [Hv _]]; exists v; exact Hv |].
  split; [eexists; reflexivity |].
  split; [eexists; reflexivity |].
  split.
  - intros He. unfold CalcTqmean, CalcRBindex, Calc7Q, CalcExceed3TimesMedian.
    rewrite He. repeat split; reflexivity.
  - intros Hz. unfold CalcRBindex.
    destruct (rb_loop_total (dropna Qvalues)) as [s [Hs Heq]].
    rewrite Hs. cbn [bind]. f_equal.
    rewrite xdiv_zero_divisor.
    + rewrite (Qeq_bool_zero Heq). reflexivity.
    + exact Hz.
    + rewrite Heq. apply pathlength_nonneg.
Qed.

Lemma MetricSet_never_raises_witness :
  (CalcTqmean [None; None] = Ok NaN /\
   CalcRBindex [None; None] = Ok NaN /\
   Calc7Q [None; None] = Ok NaN /\
   CalcExceed3TimesMedian [None; None] = Ok 0%nat) /\
  CalcRBindex [Some (-1); Some 1] = Ok PInf.
Proof.
  split.
  - apply (proj1 (proj2 (proj2 (proj2 (proj2
             (MetricSet_never_raises [None; None])))))).
    reflexivity.
  - apply (proj2 (proj2 (proj2 (proj2 (proj2
             (MetricSet_never_raises [Some (-1); Some 1])))))).
    reflexivity.
Defined.

(** C7, where the claim fails: on an empty series
    [CalcExceed3TimesMedian] returns the number 0, not NaN, and dividing
    by a zero sum gives +inf when the path length is positive. *)
Lemma MetricSet_not_always_NaN :
  ~ (exists c : nat,
        CalcExceed3TimesMedian [] = Ok c /\ is_nan (of_nat c : fval) = true) /\
  ~ (exists v : fval,
        CalcRBindex [Some (-1); Some 1] = Ok v /\ is_nan v = true).
Proof.
  split.
  - intros [c [H Hn]]. vm_compute in H. injection H as <-. discriminate Hn.
  - intros [v [H Hn]]. vm_compute in H. injection H as <-. discriminate Hn.
Qed.

(** ** ReadData *)

Lemma isna_sum_rows (df : DataFrame) :
  isna_sum (discharges df) = length (filter is_null_row df).
Proof.
  unfold isna_sum, discharges, is_null_row.
  induction df as [| r df IH]; simpl; [reflexivity |].
  destruct (Discharge r); simpl; congruence.
Qed.

Lemma lt0_spec (d : option Q) :
  lt0 d = true <-> exists q : Q, d = Some q /\ q < 0.
Proof.
  destruct d as [q |]; simpl.
  - rewrite negb_true_iff, Qle_bool_false. split.
    + intros H. exists q. split; [reflexivity | exact H].
    + intros [q' [E H]]. injection E as ->. exact H.
  - split; [discriminate | intros [q [E _]]; discriminate E].
Qed.

Lemma filter_filter_subset {A : Type} (p q : A -> bool) (l : list A) :
  (forall x, p x = true -> q x = true) ->
  filter p (filter q l) = filter p l.
Proof.
  intros Himp. induction l as [| x r IH]; simpl; [reflexivity |].
  destruct (q x) eqn:Qx; simpl.
  - destruct (p x); [f_equal |]; exact IH.
  - destruct (p x) eqn:Px; [| exact IH].
    rewrite (Himp x Px) in Qx. discriminate Qx.
Qed.

(** C10: [ReadData] drops a row exactly when its discharge is a number
    below zero.  Rows with a null discharge (a blank or the [Eqp] flag)
    stay in the returned frame, in their order; the returned count is
    their number, and [ClipData] on the returned frame counts them again
    within its range. *)
Theorem ReadData_keeps_nulls (lines : list RawRecord) :
  let DataDF := fst (ReadData lines) in
  let MissingValues := snd (ReadData lines) in
  (forall r : Observation,
      In r DataDF <->
      In r (read_csv lines) /\ ~ (exists q : Q, Discharge r = Some q /\ q < 0)) /\
  (forall l : RawRecord,
      In l lines -> raw_discharge l = Eqp \/ raw_discharge l = Blank ->
      exists r : Observation,
        In r DataDF /\ obs_date r = raw_date l /\ Discharge r = None) /\
  filter is_null_row DataDF = filter is_null_row (read_csv lines) /\
  MissingValues = length (filter is_null_row DataDF) /\
  MissingValues = isna_sum (discharges (read_csv lines)) /\
  (forall s e : Date,
      snd (ClipData DataDF s e)
      = length (filter is_null_row (loc_slice s e DataDF))).
Proof.
  cbv zeta. unfold ReadData. cbn [fst snd].
  set (keep := fun r : Observation => negb (lt0 (Discharge r))).
  assert (Hin : forall r : Observation,
             In r (filter keep (read_csv lines)) <->
             In r (read_csv lines) /\
             ~ (exists q : Q, Discharge r = Some q /\ q < 0)).
  { intros r. rewrite filter_In. unfold keep.
    rewrite negb_true_iff, <- not_true_iff_false, lt0_spec. reflexivity. }
  assert (Hnull : filter is_null_row (filter keep (read_csv lines))
                  = filter is_null_row (read_csv lines)).
  { apply filter_filter_subset. intros r Hr. unfold keep, is_null_row in *.
    destruct (Discharge r); [discriminate Hr | reflexivity]. }
  split; [exact Hin |].
  split.
  { intros l Hl Hd.
    exists (mkObs (raw_date l) (raw_agency l) (raw_site l)
                  (to_float (raw_discharge l)) (raw_quality l)).
    assert (Hnone : to_float (raw_discharge l) = None)
      by (destruct Hd as [-> | ->]; reflexivity).
    split; [| split; [reflexivity | exact Hnone]].
    apply Hin. split.
    - unfold read_csv. apply in_map_iff. exists l. split; [reflexivity | exact Hl].
    - cbn [Discharge]. rewrite Hnone. intros [q [E _]]. discriminate E. }
  split; [exact Hnull |].
  split; [apply isna_sum_rows |].
  split.
  { rewrite !isna_sum_rows. rewrite Hnull. reflexivity. }
  intros s e. unfold ClipData. cbn [snd]. apply isna_sum_rows.
Qed.

(** ** Dates *)

Lemma date_compare_antisym (a b : Date) :
  date_compare b a = CompOpp (date_compare a b).
Proof.
  unfold date_compare.
  rewrite (Z.compare_antisym (year a) (year b)).
  rewrite (Z.compare_antisym (month a) (month b)).
  rewrite (Z.compare_antisym (day a) (day b)).
  destruct (year a ?= year b)%Z; simpl; try reflexivity.
  destruct (month a ?= month b)%Z; simpl; reflexivity.
Qed.

Lemma date_ltb_leb (a b : Date) : date_ltb a b = negb (date_leb b a).
Proof.
  unfold date_ltb, date_leb. rewrite (date_compare_antisym a b).
  destruct (date_compare a b); reflexivity.
Qed.

Lemma date_leb_spec (a b : Date) :
  date_leb a b = true <->
  (year a < year b \/
   (year a = year b /\
    (month a < month b \/ (month a = month b /\ day a <= day b))))%Z.
Proof.
  unfold date_leb, date_compare.
  destruct (Z.compare_spec (year a) (year b));
    destruct (Z.compare_spec (month a) (month b));
    destruct (Z.compare_spec (day a) (day b));
    split; intros; try reflexivity; try discriminate; lia.
Qed.

Lemma date_leb_refl (a : Date) : date_leb a a = true.
Proof. apply date_leb_spec. lia. Qed.

Lemma date_leb_trans (a b c : Date) :
  date_leb a b = true -> date_leb b c = true -> date_leb a c = true.
Proof. rewrite !date_leb_spec. lia. Qed.

Lemma water_year_mono (a b : Date) :
  date_leb a b = true -> (water_year a <= water_year b)%Z.
Proof.
  rewrite date_leb_spec. unfold water_year.
  destruct (Z.leb_spec 10 (month a)), (Z.leb_spec 10 (month b)); lia.
Qed.

(** ** Label slices of a sorted frame *)

Lemma filter_all {A : Type} (p : A -> bool) (l : list A) :
  Forall (fun x => p x = true) l -> filter p l = l.
Proof.
  induction 1 as [| x r Hx _ IH]; simpl; [reflexivity |].
  rewrite Hx. f_equal. exact IH.
Qed.

Lemma filter_and {A : Type} (p q : A -> bool) (l : list A) :
  filter q (filter p l) = filter (fun x => p x && q x) l.
Proof.
  induction l as [| x r IH]; simpl; [reflexivity |].
  destruct (p x); simpl; [destruct (q x); [f_equal |] |]; exact IH.
Qed.

Lemma date_sorted_filter (p : Observation -> bool) (df : DataFrame) :
  date_sorted df -> date_sorted (filter p df).
Proof.
  unfold date_sorted. induction 1 as [| r df _ IH Hr]; simpl; [constructor |].
  destruct (p r); [| exact IH].
  constructor; [exact IH |].
  rewrite Forall_forall in *. intros x Hx. apply Hr.
  apply filter_In in Hx. apply Hx.
Qed.

Lemma drop_while_sorted (s : Date) (df : DataFrame) :
  date_sorted df ->
  drop_while (fun r => date_ltb (obs_date r) s) df
  = filter (fun r => date_leb s (obs_date r)) df.
Proof.
  unfold date_sorted. induction 1 as [| r df _ IH Hr]; simpl; [reflexivity |].
  rewrite date_ltb_leb.
  destruct (date_leb s (obs_date r)) eqn:E; simpl; [| exact IH].
  f_equal. symmetry. apply filter_all.
  eapply Forall_impl; [| exact Hr].
  intros x Hx. simpl in Hx. eapply date_leb_trans; eassumption.
Qed.

Lemma take_while_sorted (e : Date) (df : DataFrame) :
  date_sorted df ->
  take_while (fun r => date_leb (obs_date r) e) df
  = filter (fun r => date_leb (obs_date r) e) df.
Proof.
  unfold date_sorted. induction 1 as [| r df _ IH Hr]; simpl; [reflexivity |].
  destruct (date_leb (obs_date r) e) eqn:E; [f_equal; exact IH |].
  symmetry. apply filter_none.
  eapply Forall_impl; [| exact Hr].
  intros x Hx. simpl in Hx.
  destruct (date_leb (obs_date x) e) eqn:E'; [| reflexivity].
  rewrite (date_leb_trans _ _ _ Hx E') in E. discriminate E.
Qed.

(** On a sorted frame a label slice is the rows dated within the closed
    interval. *)
Lemma loc_slice_in_range (s e : Date) (df : DataFrame) :
  date_sorted df -> loc_slice s e df = filter (in_range s e) df.
Proof.
  intros Hs. unfold loc_slice.
  rewrite (drop_while_sorted s Hs).
  rewrite take_while_sorted by (apply date_sorted_filter; exact Hs).
  apply filter_and.
Qed.

(** ** ClipData *)

(** C8: on a date-sorted series, clipping to [[s1,e1]] and then to a
    sub-range [[s2,e2]] gives the rows and the missing-value count of
    clipping to [[s2,e2]] at once. *)
Theorem ClipData_subrange (DataDF : DataFrame) (s1 e1 s2 e2 : Date) :
  date_sorted DataDF ->
  date_leb s1 s2 = true -> date_leb e2 e1 = true ->
  ClipData (fst (ClipData DataDF s1 e1)) s2 e2 = ClipData DataDF s2 e2.
Proof.
  intros Hs Hstart Hend. unfold ClipData. cbn [fst].
  assert (E : loc_slice s2 e2 (loc_slice s1 e1 DataDF) = loc_slice s2 e2 DataDF).
  { rewrite (loc_slice_in_range s1 e1 Hs).
    rewrite loc_slice_in_range by (apply date_sorted_filter; exact Hs).
    rewrite (loc_slice_in_range s2 e2 Hs).
    apply filter_filter_subset. intros r Hr. unfold in_range in *.
    apply andb_true_iff in Hr. destruct Hr as [Ha Hb].
    apply andb_true_iff. split; eapply date_leb_trans; eassumption. }
  rewrite E. reflexivity.
Qed.

Lemma ClipData_subrange_witness :
  ClipData (fst (ClipData sample_frame (mkDate 1969 10 1) (mkDate 2019 9 30)))
           (mkDate 1969 10 2) (mkDate 1970 10 1)
  = ClipData sample_frame (mkDate 1969 10 2) (mkDate 1970 10 1).
Proof.
  apply ClipData_subrange.
  - repeat constructor.
  - reflexivity.
  - reflexivity.
Defined.

(** ** GetAnnualStatistics *)

Lemma annual_row_total (site : Z) (w : Series) :
  exists row : AnnualRow, annual_row site w = Ok row.
Proof.
  unfold annual_row, CalcTqmean, Calc7Q, CalcExceed3TimesMedian.
  destruct (CalcRBindex_ratio w) as [v [Hv _]]. rewrite Hv.
  cbn [bind]. eexists. reflexivity.
Qed.

Lemma mapM_total {A B : Type} (f : A -> result B) (l : list A) :
  (forall x : A, exists y : B, f x = Ok y) ->
  exists ys : list B,
    mapM f l = Ok ys /\ Forall2 (fun x y => f x = Ok y) l ys.
Proof.
  intros Hf. induction l as [| x r [ys [Hys Hall]]].
  - exists []. split; [reflexivity | constructor].
  - destruct (Hf x) as [y Hy]. exists (y :: ys). split.
    + cbn [mapM]. rewrite Hy, Hys. reflexivity.
    + constructor; assumption.
Qed.

Lemma Forall2_nth_error {A B : Type} (R : A -> B -> Prop)
      (l : list A) (l' : list B) (k : nat) (x : A) :
  Forall2 R l l' -> nth_error l k = Some x ->
  exists y : B, nth_error l' k = Some y /\ R x y.
Proof.
  intros H. revert k. induction H as [| a b l l' Hab _ IH]; intros k Hk.
  - destruct k; discriminate Hk.
  - destruct k as [| k]; simpl in *.
    + injection Hk as <-. exists b. split; [reflexivity | exact Hab].
    + apply IH. exact Hk.
Qed.

Lemma nth_error_combine {A B : Type} (l : list A) (l' : list B)
      (k : nat) (x : A) (y : B) :
  nth_error l k = Some x -> nth_error l' k = Some y ->
  nth_error (combine l l') k = Some (x, y).
Proof.
  revert l' k. induction l as [| a l IH]; intros [| b l'] [| k] Hx Hy;
    simpl in *; try discriminate.
  - congruence.
  - apply IH; assumption.
Qed.

Lemma fold_date_min_sorted (ds : list Date) (d : Date) :
  Forall (fun x => date_leb d x = true) ds -> fold_left date_min ds d = d.
Proof.
  induction 1 as [| x ds Hx _ IH]; cbn [fold_left]; [reflexivity |].
  unfold date_min at 2. rewrite Hx. exact IH.
Qed.

Lemma fold_date_max_sorted (rest : DataFrame) (r d : Observation) :
  date_sorted (r :: rest) ->
  fold_left date_max (map obs_date rest) (obs_date r)
  = obs_date (last (r :: rest) d).
Proof.
  revert r. induction rest as [| x rest IH]; intros r Hs; [reflexivity |].
  apply StronglySorted_inv in Hs. destruct Hs as [Hs Hr].
  cbn [map fold_left]. unfold date_max at 2.
  rewrite (Forall_inv Hr). rewrite (IH x Hs). reflexivity.
Qed.

(** The window sliced for water year [WY] holds the calendar dates whose
    yearly bin is the one that [resample] labels with October 1 of
    [WY - 1]. *)
Lemma wy_window_water_year (WY : Z) (d : Date) :
  calendar_date d ->
  date_leb (wy_start WY) d && date_leb d (wy_end WY) = true <->
  water_year d = WY.
Proof.
  intros [Hm [Hd Hsep]]. rewrite andb_true_iff, !date_leb_spec.
  unfold wy_start, wy_end, water_year. cbn [year month day].
  destruct (Z.leb_spec 10 (month d)); lia.
Qed.

(** An empty frame has no first site number to copy. *)
Lemma GetAnnualStatistics_empty : GetAnnualStatistics [] = Raise IndexError.
Proof. reflexivity. Qed.

(** The yearly bins of a sorted, non-empty frame run from the water year
    of its first row through the water year of its last. *)
Lemma resample_index_sorted (DataDF : DataFrame) (first : Observation) :
  date_sorted DataDF -> hd_error DataDF = Some first ->
  resample_AS_OCT_index DataDF
  = map (fun k => mkDate (water_year (obs_date first) - 1 + Z.of_nat k) 10 1)
        (seq 0 (Z.to_nat (water_year (obs_date (last DataDF first))
                          - water_year (obs_date first) + 1))).
Proof.
  intros Hs Hhd. destruct DataDF as [| r rest]; [discriminate Hhd |].
  injection Hhd as ->. unfold resample_AS_OCT_index.
  rewrite (fold_date_max_sorted first Hs).
  rewrite fold_date_min_sorted; [reflexivity |].
  apply StronglySorted_inv in Hs. destruct Hs as [_ Hr].
  rewrite Forall_forall in *. intros d Hd.
  apply in_map_iff in Hd. destruct Hd as [x [<- Hx]]. apply Hr, Hx.
Qed.

(** What [GetAnnualStatistics] does on a sorted, non-empty frame: the
    fifty rows of water years 1970 to 2019 are always computed; they are
    returned, labelled with the frame's own yearly bins, when there are
    fifty such bins, and the relabelling raises otherwise. *)
Lemma GetAnnualStatistics_outcome (DataDF : DataFrame) (first : Observation) :
  date_sorted DataDF -> hd_error DataDF = Some first ->
  let span := (water_year (obs_date (last DataDF first))
               - water_year (obs_date first))%Z in
  (span = 49%Z ->
   exists tbl : list (Date * AnnualRow),
     GetAnnualStatistics DataDF = Ok tbl /\
     length tbl = 50%nat /\
     forall k : nat, (k < 50)%nat ->
       exists row : AnnualRow,
         nth_error tbl k
         = Some (mkDate (water_year (obs_date first) - 1 + Z.of_nat k) 10 1, row) /\
         annual_row (site_no first)
           (discharges (filter (in_range (wy_start (1970 + Z.of_nat k))
                                         (wy_end (1970 + Z.of_nat k))) DataDF))
         = Ok row) /\
  (span <> 49%Z -> GetAnnualStatistics DataDF = Raise ValueError).
Proof.
  intros Hs Hhd span. unfold GetAnnualStatistics.
  rewrite (resample_index_sorted Hs Hhd). fold span.
  destruct DataDF as [| r rest] eqn:EDF; [discriminate Hhd |].
  injection Hhd as ->. rewrite <- EDF in *. cbn [bind].
  set (f := fun WY : Z =>
              row <- annual_row (site_no first) (wy_window DataDF WY) ;;
              Ok (WY, row)).
  destruct (@mapM_total _ _ f WYrange) as [ys [Hys Hall]].
  { intros WY. unfold f.
    destruct (annual_row_total (site_no first) (wy_window DataDF WY)) as [row Hrow].
    rewrite Hrow. eexists. reflexivity. }
  rewrite Hys. cbn [bind]. unfold set_index.
  assert (Hlen : length ys = 50%nat)
    by (rewrite <- (Forall2_length Hall); reflexivity).
  rewrite Hlen, length_map, length_seq.
  split.
  - intros Hspan. rewrite Hspan.
    change (Z.to_nat (49 + 1)) with 50%nat. rewrite Nat.eqb_refl.
    eexists. split; [reflexivity | split].
    + rewrite length_combine, length_map, length_seq, length_map, Hlen.
      reflexivity.
    + intros k Hk.
      assert (HWY : nth_error WYrange k = Some (1970 + Z.of_nat k)%Z).
      { unfold WYrange. rewrite nth_error_map, nth_error_seq.
        destruct (Nat.ltb_spec k 50); [reflexivity | lia]. }
      destruct (Forall2_nth_error k Hall HWY) as [[WY' row] [Hnth Hf]].
      unfold f in Hf.
      destruct (annual_row (site_no first)
                  (wy_window DataDF (1970 + Z.of_nat k))) as [row' |] eqn:Hrow;
        unfold bind in Hf; [| discriminate Hf].
      injection Hf as <- <-.
      exists row'. split.
      * apply nth_error_combine.
        -- rewrite nth_error_map, nth_error_seq.
           destruct (Nat.ltb_spec k 50); [reflexivity | lia].
        -- rewrite nth_error_map, Hnth. reflexivity.
      * unfold wy_window in Hrow.
        rewrite (loc_slice_in_range _ _ Hs) in Hrow. exact Hrow.
  - intros Hspan.
    destruct (Nat.eqb_spec 50 (Z.to_nat (span + 1))) as [E | _]; [| reflexivity].
    exfalso. apply Hspan. lia.
Qed.

(** X22: on a date-sorted series whose first row lies
    in water year 1970 and whose last lies in water year 2019,
    [GetAnnualStatistics] returns fifty rows; row [k] is labelled with the
    first day of water year [1970 + k] and is computed over exactly the
    rows dated from October 1 of the year before through September 30 of
    that year.  When the water years of the first and the last row are not
    49 apart, it raises instead of returning a table. *)
Theorem GetAnnualStatistics_fifty_rows (DataDF : DataFrame) (first : Observation) :
  date_sorted DataDF -> hd_error DataDF = Some first ->
  (water_year (obs_date first) = 1970%Z ->
   water_year (obs_date (last DataDF first)) = 2019%Z ->
   exists tbl : list (Date * AnnualRow),
     GetAnnualStatistics DataDF = Ok tbl /\
     length tbl = 50%nat /\
     forall k : nat, (k < 50)%nat ->
       exists row : AnnualRow,
         nth_error tbl k = Some (wy_start (1970 + Z.of_nat k), row) /\
         annual_row (site_no first)
           (discharges (filter (in_range (wy_start (1970 + Z.of_nat k))
                                         (wy_end (1970 + Z.of_nat k))) DataDF))
         = Ok row) /\
  ((water_year (obs_date (last DataDF first))
    - water_year (obs_date first))%Z <> 49%Z ->
   GetAnnualStatistics DataDF = Raise ValueError).
Proof.
  intros Hs Hhd.
  destruct (GetAnnualStatistics_outcome Hs Hhd) as [Hok Hraise].
  split; [| exact Hraise].
  intros Hfirst Hlast.
  destruct Hok as [tbl [Htbl [Hlen Hrows]]]; [rewrite Hfirst, Hlast; reflexivity |].
  exists tbl. split; [exact Htbl | split; [exact Hlen |]].
  intros k Hk. destruct (Hrows k Hk) as [row [Hnth Hrow]].
  exists row. split; [| exact Hrow].
  rewrite Hnth, Hfirst. unfold wy_start. do 3 f_equal. lia.
Qed.

Lemma GetAnnualStatistics_fifty_rows_witness :
  exists tbl : list (Date * AnnualRow),
    GetAnnualStatistics sample_frame = Ok tbl /\
    length tbl = 50%nat /\
    forall k : nat, (k < 50)%nat ->
      exists row : AnnualRow,
        nth_error tbl k = Some (wy_start (1970 + Z.of_nat k), row) /\
        annual_row 3335000
          (discharges (filter (in_range (wy_start (1970 + Z.of_nat k))
                                        (wy_end (1970 + Z.of_nat k))) sample_frame))
        = Ok row.
Proof.
  apply (proj1 (@GetAnnualStatistics_fifty_rows sample_frame
                  (gauge 1969 10 1 (Some 12))
                  ltac:(repeat constructor) eq_refl)).
  - reflexivity.
  - reflexivity.
Defined.

(** C1, the defect: the fifty rows of water years 1970 to 2019 are
    computed, and the last statement of the function then replaces their
    labels by the frame's own yearly bins.  A series of one observation
    has one bin, and the call raises instead of returning the fifty rows.
    A series that spans the fifty water years 1960 to 2009 gets fifty rows
    labelled 1960 to 2009, each computed over the water year ten years
    after its label. *)
Theorem GetAnnualStatistics_index_defect :
  (GetAnnualStatistics [gauge 1970 1 1 (Some 5)] = Raise ValueError /\
   ~ (exists tbl : list (Date * AnnualRow),
         GetAnnualStatistics [gauge 1970 1 1 (Some 5)] = Ok tbl /\
         length tbl = 50%nat)) /\
  (exists tbl : list (Date * AnnualRow),
      GetAnnualStatistics early_frame = Ok tbl /\
      length tbl = 50%nat /\
      forall k : nat, (k < 50)%nat ->
        exists row : AnnualRow,
          nth_error tbl k = Some (wy_start (1960 + Z.of_nat k), row) /\
          annual_row 3335000
            (discharges (filter (in_range (wy_start (1970 + Z.of_nat k))
                                          (wy_end (1970 + Z.of_nat k)))
                                early_frame))
          = Ok row).
Proof.
  split.
  - assert (H : GetAnnualStatistics [gauge 1970 1 1 (Some 5)] = Raise ValueError).
    { apply (proj2 (@GetAnnualStatistics_outcome [gauge 1970 1 1 (Some 5)]
                      (gauge 1970 1 1 (Some 5))
                      ltac:(repeat constructor) eq_refl)).
      vm_compute. discriminate. }
    split; [exact H |].
    intros [tbl [Htbl _]]. rewrite H in Htbl. discriminate Htbl.
  - destruct (proj1 (@GetAnnualStatistics_outcome early_frame
                       (gauge 1959 10 1 (Some 5))
                       ltac:(repeat constructor) eq_refl) eq_refl)
      as [tbl [Htbl [Hlen Hrows]]].
    exists tbl. split; [exact Htbl | split; [exact Hlen |]].
    intros k Hk. destruct (Hrows k Hk) as [row [Hnth Hrow]].
    exists row. split; [| exact Hrow].
    rewrite Hnth. unfold wy_start. do 3 f_equal.
    change (water_year (obs_date (gauge 1959 10 1 (Some 5)))) with 1960%Z. lia.
Qed.

(** ** Column means *)

Section NanMean.
Context {A : Type} `{Num A}.

Lemma filter_finite_or_null (col : list (ext A)) :
  finite_or_null col ->
  filter (fun v => negb (is_nan v)) col = map (@Fin A) (finite_values col).
Proof.
  induction 1 as [| v col Hv _ IH]; [reflexivity |].
  destruct Hv as [-> | [a ->]]; simpl; [| f_equal]; exact IH.
Qed.

Lemma fold_xadd_Fin (vs : list A) (a : A) :
  fold_left xadd (map (@Fin A) vs) (Fin a) = Fin (fold_left nadd vs a).
Proof.
  revert a. induction vs as [| v vs IH]; intros a; [reflexivity |].
  cbn [map fold_left xadd]. apply IH.
Qed.

(** Nulls are skipped: the mean is taken over the finite entries. *)
Lemma nanmean_finite_or_null (col : list (ext A)) :
  finite_or_null col ->
  nanmean col
  = match finite_values col with
    | [] => NaN
    | vs => xdiv (Fin (fold_left nadd vs nzero)) (of_nat (length vs))
    end.
Proof.
  intros Hcol. unfold nanmean. rewrite (filter_finite_or_null Hcol).
  destruct (finite_values col) as [| v vs]; [reflexivity |].
  rewrite fold_xadd_Fin, length_map. reflexivity.
Qed.
End NanMean.

Lemma nanmean_Q (col : list fval) :
  finite_or_null col -> finite_values col <> [] ->
  nanmean col = Fin (mean_of (finite_values col)).
Proof.
  intros Hcol Hne. rewrite (nanmean_finite_or_null Hcol).
  pose proof (qlen_pos Hne) as Hpos.
  destruct (finite_values col) as [| v vs] eqn:E; [congruence |].
  exact (xdiv_pos (series_sum (v :: vs)) Hpos).
Qed.

Lemma Rcompare_pos (r : R) : (0 < r)%R -> Rcompare r 0 = Gt.
Proof.
  intros Hr. destruct (Rcompare_spec r 0) as [E | L | _]; [lra | lra | reflexivity].
Qed.

Lemma fold_left_Rplus (l : list R) (a : R) :
  fold_left Rplus l a = (Rsum l + a)%R.
Proof.
  revert a. induction l as [| x l IH]; intros a; simpl.
  - unfold Rsum. simpl. ring.
  - rewrite IH. unfold Rsum. simpl. ring.
Qed.

Lemma nanmean_R (col : list rval) :
  finite_or_null col -> finite_values col <> [] ->
  nanmean col = Fin (Rmean (finite_values col)).
Proof.
  intros Hcol Hne. rewrite (nanmean_finite_or_null Hcol).
  destruct (finite_values col) as [| v vs] eqn:E; [congruence |].
  unfold of_nat, xdiv, nofZ, nsign, ndiv, nadd, nzero, Num_R.
  rewrite <- INR_IZR_INZ, Rcompare_pos by (apply lt_0_INR; simpl; lia).
  rewrite fold_left_Rplus. unfold Rmean. f_equal. field.
  apply not_0_INR. discriminate.
Qed.

Lemma nanmean_single_Q (v : fval) : nanmean [v] =f= v.
Proof.
  destruct v as [q | | |]; try reflexivity.
  change (nanmean [Fin q]) with (Fin ((0 + q) / inject_Z 1)).
  unfold feq. field.
Qed.

Lemma nanmean_single_R (v : rval) : nanmean [v] = v.
Proof.
  assert (H1 : Rcompare (IZR (Z.of_nat 1)) 0 = Gt) by (apply Rcompare_pos; simpl; lra).
  destruct v as [r | | |]; try reflexivity;
    unfold nanmean; cbn [filter is_nan negb fold_left xadd length of_nat xdiv
                         nsign nofZ ndiv nadd nzero Num_R]; rewrite H1; try reflexivity.
  f_equal. simpl. field.
Qed.

Lemma fcolumns_nanmean (tbl : list (Date * AnnualRow))
      (c : AnnualRow -> fval) (a : Averages -> fval) :
  In (c, a) fcolumns ->
  a (GetAnnualAverages tbl) = nanmean (map c (map snd tbl)).
Proof.
  intros Hin. simpl in Hin.
  repeat (destruct Hin as [Hin | Hin]; [injection Hin as <- <-; reflexivity |]).
  contradiction.
Qed.

Lemma rcolumns_nanmean (tbl : list (Date * AnnualRow))
      (c : AnnualRow -> rval) (a : Averages -> rval) :
  In (c, a) rcolumns ->
  a (GetAnnualAverages tbl) = nanmean (map c (map snd tbl)).
Proof.
  intros Hin. simpl in Hin.
  repeat (destruct Hin as [Hin | Hin]; [injection Hin as <- <-; reflexivity |]).
  contradiction.
Qed.

(** C9: every entry of [GetAnnualAverages] is the arithmetic mean of its
    column over the non-null rows (NaN when the column has none), and on a
    table of one row the result is that row, column by column. *)
Theorem GetAnnualAverages_column_means :
  (forall (tbl : list (Date * AnnualRow)) c a,
      In (c, a) fcolumns ->
      finite_or_null (map c (map snd tbl)) ->
      a (GetAnnualAverages tbl)
      = match finite_values (map c (map snd tbl)) with
        | [] => NaN
        | vs => Fin (mean_of vs)
        end) /\
  (forall (tbl : list (Date * AnnualRow)) c a,
      In (c, a) rcolumns ->
      finite_or_null (map c (map snd tbl)) ->
      a (GetAnnualAverages tbl)
      = match finite_values (map c (map snd tbl)) with
        | [] => NaN
        | vs => Fin (Rmean vs)
        end) /\
  (forall (idx : Date) (row : AnnualRow),
      let avg := GetAnnualAverages [(idx, row)] in
      avg_site_no avg =f= Fin (inject_Z (col_site_no row)) /\
      avg_Mean_Flow avg =f= col_Mean_Flow row /\
      avg_Peak_Flow avg =f= col_Peak_Flow row /\
      avg_Median avg =f= col_Median row /\
      avg_Coeff_Var avg = col_Coeff_Var row /\
      avg_Skew avg = col_Skew row /\
      avg_TQmean avg =f= col_TQmean row /\
      avg_RB_Index avg =f= col_RB_Index row /\
      avg_7Q avg =f= col_7Q row /\
      avg_3xMedian avg =f= col_3xMedian row).
Proof.
  split; [| split].
  - intros tbl c a Hin Hcol. rewrite (fcolumns_nanmean tbl Hin).
    destruct (finite_values (map c (map snd tbl))) as [| v vs] eqn:E.
    + rewrite (nanmean_finite_or_null Hcol), E. reflexivity.
    + rewrite <- E. apply nanmean_Q; [exact Hcol | rewrite E; discriminate].
  - intros tbl c a Hin Hcol. rewrite (rcolumns_nanmean tbl Hin).
    destruct (finite_values (map c (map snd tbl))) as [| v vs] eqn:E.
    + rewrite (nanmean_finite_or_null Hcol), E. reflexivity.
    + rewrite <- E. apply nanmean_R; [exact Hcol | rewrite E; discriminate].
  - intros idx row avg. unfold avg, GetAnnualAverages.
    cbn [map snd avg_site_no avg_Mean_Flow avg_Peak_Flow avg_Median
         avg_Coeff_Var avg_Skew avg_TQmean avg_RB_Index avg_7Q avg_3xMedian].
    repeat split; first [apply nanmean_single_Q | apply nanmean_single_R].
Qed.

(** ** Skewness *)

Lemma Q2R_series_sum (xs : list Q) : Q2R (series_sum xs) = Rsum (map Q2R xs).
Proof.
  unfold series_sum.
  assert (G : forall a, Q2R (fold_left Qplus xs a) = (Rsum (map Q2R xs) + Q2R a)%R).
  { induction xs as [| x xs IH]; intros a; cbn [fold_left map].
    - unfold Rsum. simpl. ring.
    - rewrite IH, Q2R_plus. unfold Rsum. simpl. ring. }
  rewrite G. rewrite RMicromega.Q2R_0. ring.
Qed.

Lemma Q2R_qlen (xs : list Q) : Q2R (qlen xs) = INR (length xs).
Proof.
  unfold qlen, Q2R. simpl. rewrite INR_IZR_INZ. field.
Qed.

Lemma qlen_nonzero (xs : list Q) : xs <> [] -> ~ qlen xs == 0.
Proof.
  intros Hne E. pose proof (qlen_pos Hne) as Hpos.
  rewrite E in Hpos. apply (Qlt_irrefl _ Hpos).
Qed.

Lemma dropna_no_null (w : Series) :
  has_null w = false -> length (dropna w) = length w.
Proof.
  induction w as [| [q |] w IH]; simpl; intros H; [reflexivity | | discriminate H].
  f_equal. apply IH, H.
Qed.

Section Moments.
Variable xs : list Q.
Hypothesis nonempty : xs <> [].

Lemma Q2R_mean : Q2R (series_sum xs / qlen xs) = Rmean (map Q2R xs).
Proof.
  rewrite Q2R_div by (apply qlen_nonzero, nonempty).
  rewrite Q2R_series_sum, Q2R_qlen. unfold Rmean. rewrite length_map.
  reflexivity.
Qed.

Lemma Q2R_moment_sum (k : positive) :
  (forall q : Q, Q2R (q ^ Z.pos k) = (Q2R q ^ Pos.to_nat k)%R) ->
  Q2R (moment (Pos.to_nat k) xs) = central_moment (Pos.to_nat k) (map Q2R xs).
Proof.
  intros Hpow. unfold moment, central_moment.
  rewrite Q2R_div by (apply qlen_nonzero, nonempty).
  rewrite Q2R_series_sum, Q2R_qlen, !length_map, map_map.
  rewrite positive_nat_Z. f_equal. f_equal.
  rewrite map_map. apply map_ext. intros x.
  rewrite Hpow. unfold Qminus. rewrite Q2R_plus, Q2R_opp, Q2R_mean.
  reflexivity.
Qed.

Lemma Q2R_moment2 : Q2R (moment 2 xs) = central_moment 2 (map Q2R xs).
Proof.
  apply (Q2R_moment_sum 2). intros q. simpl. rewrite Q2R_mult. ring.
Qed.

Lemma Q2R_moment3 : Q2R (moment 3 xs) = central_moment 3 (map Q2R xs).
Proof.
  apply (Q2R_moment_sum 3). intros q. simpl. rewrite !Q2R_mult. ring.
Qed.
End Moments.

Lemma Rsum_nonneg (l : list R) :
  Forall (fun x => (0 <= x)%R) l -> (0 <= Rsum l)%R.
Proof.
  induction 1 as [| x l Hx _ IH]; unfold Rsum in *; simpl; lra.
Qed.

Lemma central_moment2_nonneg (l : list R) : (0 <= central_moment 2 l)%R.
Proof.
  unfold central_moment. destruct l as [| x r].
  - simpl. unfold Rsum. simpl. lra.
  - apply Rmult_le_pos.
    + apply Rsum_nonneg. apply Forall_forall. intros y Hy.
      apply in_map_iff in Hy. destruct Hy as [z [<- _]]. apply pow2_ge_0.
    + left. apply Rinv_0_lt_compat. apply lt_0_INR. simpl. lia.
Qed.

Lemma pow15_cube (x : R) : (0 <= x)%R -> pow15 x = (sqrt x ^ 3)%R.
Proof.
  intros Hx. unfold pow15. rewrite <- (sqrt_sqrt x Hx) at 1. ring.
Qed.

Lemma central_moment2_nil : central_moment 2 [] = 0%R.
Proof. unfold central_moment, Rsum. simpl. lra. Qed.

Section Skew.
Variable w : Series.
Hypothesis no_null : has_null w = false.
Hypothesis spread : central_moment 2 (map Q2R (dropna w)) <> 0%R.

Let xs := dropna w.

Lemma skew_nonempty : xs <> [].
Proof.
  intros E. apply spread. fold xs. rewrite E. apply central_moment2_nil.
Qed.

Lemma skew_m2_pos : 0 < moment 2 xs.
Proof.
  apply Rlt_Qlt. rewrite RMicromega.Q2R_0, (Q2R_moment2 skew_nonempty).
  pose proof (central_moment2_nonneg (map Q2R xs)) as Hge.
  fold xs in spread. lra.
Qed.

Lemma skew_m2_nonzero : Qeq_bool (moment 2 xs) 0 = false.
Proof.
  destruct (Qeq_bool (moment 2 xs) 0) eqn:E; [| reflexivity].
  apply Qeq_bool_iff in E. pose proof skew_m2_pos as Hpos.
  rewrite E in Hpos. exfalso. apply (Qlt_irrefl _ Hpos).
Qed.

(** The default call returns the Fisher-Pearson coefficient g1. *)
Lemma stats_skew_value :
  stats_skew w = Fin (fisher_pearson (map Q2R (dropna w))).
Proof.
  unfold stats_skew, skew. rewrite no_null. fold xs.
  pose proof skew_nonempty as Hne.
  destruct xs as [| x r] eqn:E; [congruence |]. rewrite <- E in *.
  rewrite skew_m2_nonzero. cbn [negb andb]. f_equal.
  rewrite (Q2R_moment2 Hne), (Q2R_moment3 Hne).
  rewrite pow15_cube by apply central_moment2_nonneg.
  reflexivity.
Qed.

(** With [bias=False] and three values or more the call would return
    the adjusted coefficient G1. *)
Lemma skew_unbiased_value :
  (3 <= length w)%nat ->
  skew false w = Fin (adjusted_fisher_pearson (map Q2R (dropna w))).
Proof.
  intros Hlen. unfold skew. rewrite no_null. fold xs.
  pose proof skew_nonempty as Hne.
  assert (Hn : (3 <= length xs)%nat)
    by (unfold xs; rewrite (dropna_no_null w no_null); exact Hlen).
  destruct xs as [| x r] eqn:E; [congruence |]. rewrite <- E in *.
  rewrite skew_m2_nonzero. cbn [negb andb].
  assert (H2 : Qle_bool (qlen xs) 2 = false).
  { apply Qle_bool_false. unfold qlen.
    replace 2 with (inject_Z 2) by reflexivity. rewrite <- Zlt_Qlt. lia. }
  assert (H0 : Qle_bool (moment 2 xs) 0 = false)
    by (apply Qle_bool_false, skew_m2_pos).
  rewrite H2, H0. cbn [negb andb]. f_equal.
  unfold adjusted_fisher_pearson, fisher_pearson. cbv zeta.
  rewrite (Q2R_moment2 Hne), (Q2R_moment3 Hne).
  rewrite pow15_cube by apply central_moment2_nonneg.
  rewrite Q2R_mult, !Q2R_minus, Q2R_qlen, length_map.
  replace (Q2R 1) with 1%R by (unfold Q2R; simpl; field).
  replace (Q2R 2) with 2%R by (unfold Q2R; simpl; field).
  replace ((INR (length xs) - 1) * INR (length xs))%R
    with (INR (length xs) * (INR (length xs) - 1))%R by ring.
  unfold Rdiv. ring.
Qed.
End Skew.

(** A null in the window propagates to the result. *)
Lemma stats_skew_null (w : Series) : has_null w = true -> stats_skew w = NaN.
Proof. intros H. unfold stats_skew, skew. rewrite H. reflexivity. Qed.

Lemma annual_row_Skew (site : Z) (w : Series) (row : AnnualRow) :
  annual_row site w = Ok row -> col_Skew row = stats_skew w.
Proof.
  unfold annual_row, CalcTqmean, Calc7Q, CalcExceed3TimesMedian.
  destruct (CalcRBindex_ratio w) as [v [Hv _]]. rewrite Hv.
  cbn [bind]. intros E. injection E as <-. reflexivity.
Qed.

(** C4, as the code has it: for a window without a null whose values are
    not all equal, the Skew column is the Fisher-Pearson coefficient
    g1 = m3 / m2^(3/2) of the discharges, the default of [stats.skew]; the
    adjusted coefficient is what [bias=False] would give for three values
    or more. *)
Theorem Skew_is_fisher_pearson (site : Z) (w : Series) (row : AnnualRow) :
  annual_row site w = Ok row ->
  has_null w = false ->
  central_moment 2 (map Q2R (dropna w)) <> 0%R ->
  col_Skew row = Fin (fisher_pearson (map Q2R (dropna w))) /\
  ((3 <= length w)%nat ->
   skew false w = Fin (adjusted_fisher_pearson (map Q2R (dropna w)))).
Proof.
  intros Hrow Hnull Hspread. split.
  - rewrite (annual_row_Skew _ _ Hrow). apply stats_skew_value; assumption.
  - apply skew_unbiased_value; assumption.
Qed.

Lemma skewed_window_moments :
  central_moment 2 (map Q2R (dropna skewed_window)) = 9%R /\
  central_moment 3 (map Q2R (dropna skewed_window)) = 24%R.
Proof.
  unfold central_moment, Rmean, Rsum, Q2R. simpl. split; field.
Qed.

Lemma Skew_is_fisher_pearson_witness :
  exists row : AnnualRow,
    annual_row 3335000 skewed_window = Ok row /\
    col_Skew row = Fin (fisher_pearson (map Q2R (dropna skewed_window))) /\
    skew false skewed_window
    = Fin (adjusted_fisher_pearson (map Q2R (dropna skewed_window))).
Proof.
  destruct (annual_row_total 3335000 skewed_window) as [row Hrow].
  assert (Hspread : central_moment 2 (map Q2R (dropna skewed_window)) <> 0%R)
    by (rewrite (proj1 skewed_window_moments); lra).
  exists row. split; [exact Hrow |].
  destruct (@Skew_is_fisher_pearson 3335000 skewed_window row Hrow eq_refl Hspread)
    as [Hg1 Hadj].
  split; [exact Hg1 |]. apply Hadj. simpl. lia.
Defined.

(** C4, where the claim fails: for the discharges 0, 2, 2, 8 the Skew
    column is 24/27, and the adjusted coefficient is sqrt(3) times that. *)
Lemma Skew_not_adjusted :
  exists row : AnnualRow,
    annual_row 3335000 skewed_window = Ok row /\
    col_Skew row
    <> Fin (adjusted_fisher_pearson (map Q2R (dropna skewed_window))).
Proof.
  destruct (annual_row_total 3335000 skewed_window) as [row Hrow].
  exists row. split; [exact Hrow |].
  destruct skewed_window_moments as [Hm2 Hm3].
  rewrite (annual_row_Skew _ _ Hrow).
  rewrite stats_skew_value by (try reflexivity; rewrite Hm2; lra).
  assert (Hn : INR (length (map Q2R (dropna skewed_window))) = 4%R)
    by (simpl; lra).
  remember (map Q2R (dropna skewed_window)) as l eqn:El.
  intros E.
  assert (E' : fisher_pearson l = adjusted_fisher_pearson l) by congruence.
  unfold adjusted_fisher_pearson in E'. cbv zeta in E'.
  assert (Hs9 : sqrt 9 = 3%R).
  { replace 9%R with (3 * 3)%R by lra. apply sqrt_square. lra. }
  assert (Hg1 : fisher_pearson l = (24 / 27)%R).
  { unfold fisher_pearson. rewrite Hm2, Hm3, Hs9. field. }
  rewrite Hn, Hg1 in E'.
  assert (Hs12 : sqrt (4 * (4 - 1)) = 2%R) by lra.
  assert (Hsq : (sqrt (4 * (4 - 1)) * sqrt (4 * (4 - 1)) = 4 * (4 - 1))%R)
    by (apply sqrt_sqrt; lra).
  rewrite Hs12 in Hsq. lra.
Qed.

(** ** Worked instances *)

Lemma GetAnnualAverages_column_means_witness :
  avg_Mean_Flow
    (GetAnnualAverages
       [ (mkDate 1969 10 1, mkRow 3335000 (Fin 2) NaN NaN NaN NaN NaN NaN NaN NaN);
         (mkDate 1970 10 1, mkRow 3335000 NaN NaN NaN NaN NaN NaN NaN NaN NaN);
         (mkDate 1971 10 1, mkRow 3335000 (Fin 4) NaN NaN NaN NaN NaN NaN NaN NaN) ])
  = Fin (mean_of [2; 4]).
Proof.
  refine (proj1 GetAnnualAverages_column_means _ col_Mean_Flow avg_Mean_Flow _ _).
  - simpl. auto.
  - apply Forall_cons; [right; eexists; reflexivity |].
    apply Forall_cons; [left; reflexivity |].
    apply Forall_cons; [right; eexists; reflexivity |].
    apply Forall_nil.
Defined.

Lemma ReadData_keeps_nulls_witness :
  exists r : Observation,
    In r (fst (ReadData
                 [ mkRaw "USGS" 3335000 (mkDate 1969 10 1) (Value (-3)) "A";
                   mkRaw "USGS" 3335000 (mkDate 1969 10 2) Eqp "A" ])) /\
    obs_date r = mkDate 1969 10 2 /\ Discharge r = None.
Proof.
  apply (proj1 (proj2 (ReadData_keeps_nulls
           [ mkRaw "USGS" 3335000 (mkDate 1969 10 1) (Value (-3)) "A";
             mkRaw "USGS" 3335000 (mkDate 1969 10 2) Eqp "A" ]))
           (mkRaw "USGS" 3335000 (mkDate 1969 10 2) Eqp "A")).
  - simpl. auto.
  - left. reflexivity.
Defined.

(* ================================================================= *)
(** * Further properties of the code *)

(** ** ClipData and ReadData *)

Lemma filter_filter_length_le {A : Type} (p q : A -> bool) (l : list A) :
  (length (filter p (filter q l)) <= length (filter p l))%nat.
Proof.
  induction l as [| x r IH]; simpl; [lia |].
  destruct (q x); simpl; destruct (p x); simpl; lia.
Qed.

(** X1: on a date-sorted frame [ClipData] returns exactly the rows dated
    within the closed range, in their order; the result is date-sorted
    again, the count is the number of null rows among them, and it is no
    greater than the count over the whole frame. *)
Theorem ClipData_rows_in_range (DataDF : DataFrame) (s e : Date) :
  date_sorted DataDF ->
  fst (ClipData DataDF s e) = filter (in_range s e) DataDF /\
  date_sorted (fst (ClipData DataDF s e)) /\
  snd (ClipData DataDF s e)
  = length (filter is_null_row (filter (in_range s e) DataDF)) /\
  (snd (ClipData DataDF s e) <= isna_sum (discharges DataDF))%nat.
Proof.
  intros Hs. unfold ClipData. cbn [fst snd].
  rewrite (loc_slice_in_range s e Hs), !isna_sum_rows.
  split; [reflexivity |].
  split; [apply date_sorted_filter; exact Hs |].
  split; [reflexivity |].
  apply filter_filter_length_le.
Qed.

Lemma ClipData_rows_in_range_witness :
  fst (ClipData sample_frame (mkDate 1969 10 2) (mkDate 1970 9 30))
  = filter (in_range (mkDate 1969 10 2) (mkDate 1970 9 30)) sample_frame /\
  date_sorted (fst (ClipData sample_frame (mkDate 1969 10 2) (mkDate 1970 9 30))) /\
  snd (ClipData sample_frame (mkDate 1969 10 2) (mkDate 1970 9 30))
  = length (filter is_null_row
              (filter (in_range (mkDate 1969 10 2) (mkDate 1970 9 30)) sample_frame)) /\
  (snd (ClipData sample_frame (mkDate 1969 10 2) (mkDate 1970 9 30))
   <= isna_sum (discharges sample_frame))%nat.
Proof.
  apply ClipData_rows_in_range. repeat constructor.
Defined.

Lemma drop_while_head {A : Type} (p : A -> bool) (l : list A) :
  match drop_while p l with
  | [] => True
  | x :: _ => p x = false
  end.
Proof.
  induction l as [| x r IH]; simpl; [exact I |].
  destruct (p x) eqn:E; [exact IH | exact E].
Qed.

(** X2: on a date-sorted frame, when the end date precedes the start date
    [ClipData] returns no rows and the count 0. *)
Theorem ClipData_reversed_range (DataDF : DataFrame) (s e : Date) :
  date_sorted DataDF ->
  date_ltb e s = true -> ClipData DataDF s e = ([], 0%nat).
Proof.
  intros _ Hes. unfold ClipData, loc_slice.
  pose proof (drop_while_head (fun r => date_ltb (obs_date r) s) DataDF) as Hhd.
  destruct (drop_while (fun r => date_ltb (obs_date r) s) DataDF) as [| x rest];
    [reflexivity |].
  cbn [take_while].
  assert (Hx : date_leb (obs_date x) e = false).
  { destruct (date_leb (obs_date x) e) eqn:E; [| reflexivity].
    rewrite date_ltb_leb in Hhd, Hes.
    apply negb_false_iff in Hhd. apply negb_true_iff in Hes.
    rewrite (date_leb_trans _ _ _ Hhd E) in Hes. discriminate Hes. }
  rewrite Hx. reflexivity.
Qed.

Lemma ClipData_reversed_range_witness :
  ClipData sample_frame (mkDate 2019 9 30) (mkDate 1969 10 1) = ([], 0%nat).
Proof.
  apply ClipData_reversed_range; [repeat constructor | reflexivity].
Defined.

Lemma isna_dropna_length (qs : Series) :
  (isna_sum qs + length (dropna qs) = length qs)%nat.
Proof.
  unfold isna_sum. induction qs as [| [q |] qs IH]; simpl; lia.
Qed.

(** X3: every row [ReadData] returns has a null or non-negative
    discharge; the rows keep their order, so a date-sorted file gives a
    date-sorted frame; no row is added; and the returned count plus the
    number of non-null discharges is the number of rows returned. *)
Theorem ReadData_output (lines : list RawRecord) :
  Forall (fun r => forall q : Q, Discharge r = Some q -> 0 <= q)
         (fst (ReadData lines)) /\
  (date_sorted (read_csv lines) -> date_sorted (fst (ReadData lines))) /\
  (length (fst (ReadData lines)) <= length lines)%nat /\
  (snd (ReadData lines)
   + length (dropna (discharges (fst (ReadData lines))))
   = length (fst (ReadData lines)))%nat.
Proof.
  unfold ReadData. cbn [fst snd].
  split; [| split; [| split]].
  - apply Forall_forall. intros r Hr q Hq.
    apply filter_In in Hr. destruct Hr as [_ Hkeep].
    rewrite Hq in Hkeep. cbn [lt0] in Hkeep.
    rewrite negb_involutive in Hkeep. apply Qle_bool_iff. exact Hkeep.
  - apply date_sorted_filter.
  - eapply Nat.le_trans; [apply filter_length_le |].
    unfold read_csv. rewrite length_map. lia.
  - rewrite isna_dropna_length. unfold discharges. apply length_map.
Qed.

(** ** Sums of discharges *)

Lemma fold_left_Qplus (r : list Q) (a : Q) :
  fold_left Qplus r a == a + series_sum r.
Proof.
  unfold series_sum. revert a. induction r as [| x r IH]; intros a; cbn [fold_left].
  - ring.
  - rewrite (IH (a + x)), (IH (0 + x)). ring.
Qed.

Lemma series_sum_cons (x : Q) (r : list Q) :
  series_sum (x :: r) == x + series_sum r.
Proof.
  unfold series_sum at 1. cbn [fold_left]. rewrite fold_left_Qplus. ring.
Qed.

Lemma qlen_cons (x : Q) (r : list Q) : qlen (x :: r) == 1 + qlen r.
Proof.
  unfold qlen. cbn [length]. rewrite Nat2Z.inj_succ, <- Z.add_1_l.
  rewrite inject_Z_plus. reflexivity.
Qed.

Lemma series_sum_lower (lo : Q) (xs : list Q) :
  Forall (fun x => lo <= x) xs -> qlen xs * lo <= series_sum xs.
Proof.
  induction 1 as [| x r Hx _ IH].
  - unfold qlen, series_sum. simpl. rewrite Qmult_0_l. apply Qle_refl.
  - rewrite series_sum_cons, qlen_cons.
    setoid_replace ((1 + qlen r) * lo) with (lo + qlen r * lo) by ring.
    apply Qplus_le_compat; assumption.
Qed.

Lemma series_sum_upper (hi : Q) (xs : list Q) :
  Forall (fun x => x <= hi) xs -> series_sum xs <= qlen xs * hi.
Proof.
  induction 1 as [| x r Hx _ IH].
  - unfold qlen, series_sum. simpl. rewrite Qmult_0_l. apply Qle_refl.
  - rewrite series_sum_cons, qlen_cons.
    setoid_replace ((1 + qlen r) * hi) with (hi + qlen r * hi) by ring.
    apply Qplus_le_compat; assumption.
Qed.

(** ** More on the metrics *)

Lemma filter_length_split {A : Type} (p : A -> bool) (l : list A) :
  (length (filter p l) + length (filter (fun x => negb (p x)) l) = length l)%nat.
Proof.
  induction l as [| x r IH]; simpl; [reflexivity |].
  destruct (p x); simpl; lia.
Qed.

Lemma strictly_above_upto (m : Q) (l : list Q) :
  (length (strictly_above m l) + count_upto m l = length l)%nat.
Proof.
  unfold count_upto. rewrite <- (filter_length_split (fun x => Qle_bool x m) l).
  rewrite Nat.add_comm. f_equal.
  rewrite <- count_gt_Fin. reflexivity.
Qed.

Lemma count_upto_mono (v v' : Q) (l : list Q) :
  v <= v' -> (count_upto v l <= count_upto v' l)%nat.
Proof.
  intros Hv. apply filter_length_mono. intros x Hx.
  apply Qle_bool_iff in Hx. apply Qle_bool_iff.
  eapply Qle_trans; eassumption.
Qed.

Lemma sorted_nth_le (s : list Q) :
  StronglySorted Qle s ->
  forall i j : nat, (i <= j)%nat -> (j < length s)%nat ->
    nth i s 0 <= nth j s 0.
Proof.
  induction 1 as [| a t Hs IH Ha]; intros i j Hij Hj; [simpl in Hj; lia |].
  destruct j as [| j].
  - replace i with 0%nat by lia. apply Qle_refl.
  - simpl in Hj. destruct i as [| i]; cbn [nth].
    + rewrite Forall_forall in Ha. apply Ha, nth_In. lia.
    + apply IH; lia.
Qed.

(** The middle of an ascending list is at least its entry at position
    [(n - 1) / 2]. *)
Lemma middle_lower (s : list Q) :
  StronglySorted Qle s -> s <> [] ->
  nth ((length s - 1) / 2) s 0 <= middle s.
Proof.
  intros Hs Hne. unfold middle.
  set (n := length s).
  assert (Hn : (0 < n)%nat) by (unfold n; destruct s; [congruence | simpl; lia]).
  destruct (Nat.even n) eqn:Ev.
  - apply Nat.even_spec in Ev. destruct Ev as [k Hk].
    replace ((n - 1) / 2)%nat with (k - 1)%nat
      by (apply Nat.div_unique with (r := 1%nat); lia).
    replace (n / 2)%nat with k
      by (apply Nat.div_unique with (r := 0%nat); lia).
    assert (Hle : nth (k - 1) s 0 <= nth k s 0)
      by (apply sorted_nth_le; [exact Hs | lia | fold n; lia]).
    apply Qle_shift_div_l; [reflexivity |].
    setoid_replace (nth (k - 1) s 0 * 2)
      with (nth (k - 1) s 0 + nth (k - 1) s 0) by ring.
    apply Qplus_le_compat; [apply Qle_refl | exact Hle].
  - assert (Od : Nat.odd n = true) by (rewrite <- Nat.negb_even, Ev; reflexivity).
    apply Nat.odd_spec in Od. destruct Od as [k Hk].
    replace ((n - 1) / 2)%nat with k
      by (apply Nat.div_unique with (r := 0%nat); lia).
    replace (n / 2)%nat with k
      by (apply Nat.div_unique with (r := 1%nat); lia).
    apply Qle_refl.
Qed.

(** X6: when no non-null value is negative, at most half of the non-null
    values exceed three times their median. *)
Theorem CalcExceed3TimesMedian_at_most_half (Qvalues : Series) :
  Forall (fun q => 0 <= q) (dropna Qvalues) ->
  exists c : nat,
    CalcExceed3TimesMedian Qvalues = Ok c /\
    (2 * c <= length (dropna Qvalues))%nat.
Proof.
  intros Hpos. unfold CalcExceed3TimesMedian.
  set (xs := dropna Qvalues) in *.
  eexists. split; [reflexivity |].
  destruct xs as [| x0 r0] eqn:Exs; [simpl; lia |]. rewrite <- Exs in *.
  assert (Hne : xs <> []) by (rewrite Exs; discriminate).
  rewrite (series_median_middle Hne). cbn [xmul nmul Num_Q].
  rewrite count_gt_Fin.
  set (s := QSort.sort xs).
  pose proof (sort_sorted xs) as Hs. fold s in Hs.
  pose proof (QSort.Permuted_sort xs) as Hp. fold s in Hp.
  assert (Hlen : length s = length xs)
    by (symmetry; apply Permutation_length, Hp).
  assert (Hsne : s <> [])
    by (intros E; rewrite E in Hlen; destruct xs; [congruence | discriminate Hlen]).
  set (j := ((length s - 1) / 2)%nat).
  assert (Hj : (j < length s)%nat).
  { unfold j. apply Nat.Div0.div_lt_upper_bound.
    destruct s; [congruence | simpl; lia]. }
  pose proof (middle_lower Hs Hsne) as Hmid. fold j in Hmid.
  assert (Hnth0 : 0 <= nth j s 0).
  { assert (Hin : In (nth j s 0) xs)
      by (eapply Permutation_in; [apply Permutation_sym, Hp | apply nth_In, Hj]).
    rewrite Forall_forall in Hpos. apply Hpos, Hin. }
  assert (Hm0 : 0 <= middle s) by (eapply Qle_trans; eassumption).
  assert (H3 : middle s <= 3 * middle s).
  { setoid_replace (middle s) with (1 * middle s) at 1 by ring.
    apply Qmult_le_compat_r; [discriminate | exact Hm0]. }
  pose proof (strictly_above_upto (3 * middle s) xs) as Hsplit.
  assert (Hup : (j < count_upto (3 * middle s) xs)%nat).
  { unfold count_upto. rewrite (filter_length_perm _ Hp).
    fold (count_upto (3 * middle s) s).
    pose proof (sorted_rank Hs Hj) as [_ Hrank].
    eapply Nat.lt_le_trans; [exact Hrank |].
    apply count_upto_mono. eapply Qle_trans; eassumption. }
  assert (Hjn : (length s <= 2 * j + 2)%nat).
  { unfold j. pose proof (Nat.div_mod_eq (length s - 1) 2) as Hdm.
    pose proof (Nat.mod_upper_bound (length s - 1) 2). lia. }
  lia.
Qed.

Lemma CalcExceed3TimesMedian_at_most_half_witness :
  exists c : nat,
    CalcExceed3TimesMedian flood_series = Ok c /\
    (2 * c <= length (dropna flood_series))%nat.
Proof.
  apply CalcExceed3TimesMedian_at_most_half.
  simpl. repeat constructor; discriminate.
Defined.

(** ** More on GetAnnualStatistics *)

(** Where each column of a row comes from. *)
Lemma annual_row_columns (site : Z) (w : Series) (row : AnnualRow) :
  annual_row site w = Ok row ->
  col_site_no row = site /\
  col_Mean_Flow row = series_mean (dropna w) /\
  col_Peak_Flow row = series_max (dropna w) /\
  col_Median row = series_median (dropna w) /\
  col_Skew row = stats_skew w /\
  CalcTqmean w = Ok (col_TQmean row) /\
  CalcRBindex w = Ok (col_RB_Index row) /\
  Calc7Q w = Ok (col_7Q row) /\
  exists c : nat,
    CalcExceed3TimesMedian w = Ok c /\ col_3xMedian row = of_nat c.
Proof.
  unfold annual_row.
  destruct (CalcRBindex_ratio w) as [v [Hv _]]. rewrite Hv.
  unfold CalcTqmean, Calc7Q, CalcExceed3TimesMedian. cbn [bind].
  intros E. injection E as <-. cbn.
  repeat (split; [reflexivity |]). eexists. split; reflexivity.
Qed.

Lemma Forall2_in_r {A B : Type} (R : A -> B -> Prop)
      (l : list A) (l' : list B) (y : B) :
  Forall2 R l l' -> In y l' -> exists x : A, In x l /\ R x y.
Proof.
  induction 1 as [| a b l l' Hab _ IH]; intros Hin; [contradiction |].
  destruct Hin as [<- | Hin].
  - exists a. split; [left; reflexivity | exact Hab].
  - destruct (IH Hin) as [x [Hx Hr]]. exists x. split; [right; exact Hx | exact Hr].
Qed.

(** Whenever [GetAnnualStatistics] returns, on a sorted frame or not, the
    rows are those of the fifty passes of the loop. *)
Lemma GetAnnualStatistics_rows (DataDF : DataFrame) (first : Observation)
      (tbl : list (Date * AnnualRow)) :
  hd_error DataDF = Some first ->
  GetAnnualStatistics DataDF = Ok tbl ->
  length tbl = 50%nat /\
  Forall (fun p => exists WY : Z,
              annual_row (site_no first) (wy_window DataDF WY) = Ok (snd p)) tbl.
Proof.
  intros Hhd. unfold GetAnnualStatistics.
  destruct DataDF as [| r rest] eqn:EDF; [discriminate Hhd |].
  injection Hhd as ->. rewrite <- EDF. cbn [bind].
  set (f := fun WY : Z =>
              row <- annual_row (site_no first) (wy_window DataDF WY) ;;
              Ok (WY, row)).
  destruct (@mapM_total _ _ f WYrange) as [ys [Hys Hall]].
  { intros WY. unfold f.
    destruct (annual_row_total (site_no first) (wy_window DataDF WY)) as [row Hrow].
    rewrite Hrow. eexists. reflexivity. }
  rewrite Hys. cbn [bind]. unfold set_index.
  assert (Hlen : length ys = 50%nat)
    by (rewrite <- (Forall2_length Hall); reflexivity).
  destruct (Nat.eqb_spec (length ys) (length (resample_AS_OCT_index DataDF)))
    as [E | _]; [| discriminate].
  intros H. injection H as <-. split.
  - rewrite length_combine, length_map, <- E, Hlen. reflexivity.
  - apply Forall_forall. intros [lbl row] Hin.
    apply in_combine_r in Hin. apply in_map_iff in Hin.
    destruct Hin as [[WY' row'] [Hsnd Hin]]. cbn [snd] in Hsnd. subst row'.
    destruct (@Forall2_in_r _ _ _ _ _ _ Hall Hin) as [WY [_ Hf]]. unfold f in Hf.
    destruct (annual_row (site_no first) (wy_window DataDF WY)) as [row'' |] eqn:Hrow;
      unfold bind in Hf; [| discriminate Hf].
    injection Hf as _ <-. exists WY. exact Hrow.
Qed.

(** X8: whenever [GetAnnualStatistics] returns a table, on any frame, the
    table has fifty rows and every row carries the site number of the
    frame's first row. *)
Theorem GetAnnualStatistics_site_no (DataDF : DataFrame) (first : Observation)
        (tbl : list (Date * AnnualRow)) :
  hd_error DataDF = Some first ->
  GetAnnualStatistics DataDF = Ok tbl ->
  length tbl = 50%nat /\
  Forall (fun p => col_site_no (snd p) = site_no first) tbl.
Proof.
  intros Hhd Htbl.
  destruct (GetAnnualStatistics_rows DataDF Hhd Htbl) as [Hlen Hrows].
  split; [exact Hlen |].
  eapply Forall_impl; [| exact Hrows].
  intros p [WY Hrow]. apply annual_row_columns in Hrow. apply Hrow.
Qed.

Lemma GetAnnualStatistics_site_no_witness :
  exists tbl : list (Date * AnnualRow),
    GetAnnualStatistics sample_frame = Ok tbl /\
    length tbl = 50%nat /\
    Forall (fun p => col_site_no (snd p) = 3335000%Z) tbl.
Proof.
  destruct (proj1 (@GetAnnualStatistics_outcome sample_frame
                     (gauge 1969 10 1 (Some 12))
                     ltac:(repeat constructor) eq_refl) eq_refl)
    as [tbl [Htbl _]].
  exists tbl. split; [exact Htbl |].
  exact (@GetAnnualStatistics_site_no sample_frame (gauge 1969 10 1 (Some 12))
           tbl eq_refl Htbl).
Defined.

Lemma annual_row_no_value (site : Z) (w : Series) :
  dropna w = [] ->
  annual_row site w = Ok (mkRow site NaN NaN NaN NaN NaN NaN NaN NaN (Fin 0)).
Proof.
  intros He. unfold annual_row, CalcTqmean, CalcRBindex, Calc7Q,
    CalcExceed3TimesMedian, stats_skew, skew.
  rewrite He. destruct (has_null w); reflexivity.
Qed.

(** X9: a water year in which the frame has no non-null discharge (no row
    at all, or null rows only) gets a row whose statistics are all NaN,
    except the count of days above three times the median, which is 0. *)
Theorem GetAnnualStatistics_empty_year
        (DataDF : DataFrame) (first : Observation) (k : nat) :
  date_sorted DataDF -> hd_error DataDF = Some first ->
  (water_year (obs_date (last DataDF first))
   - water_year (obs_date first))%Z = 49%Z ->
  (k < 50)%nat ->
  dropna (discharges (filter (in_range (wy_start (1970 + Z.of_nat k))
                                       (wy_end (1970 + Z.of_nat k))) DataDF)) = [] ->
  exists tbl : list (Date * AnnualRow),
    GetAnnualStatistics DataDF = Ok tbl /\
    nth_error tbl k
    = Some (mkDate (water_year (obs_date first) - 1 + Z.of_nat k) 10 1,
            mkRow (site_no first) NaN NaN NaN NaN NaN NaN NaN NaN (Fin 0)).
Proof.
  intros Hs Hhd Hspan Hk Hempty.
  destruct (proj1 (GetAnnualStatistics_outcome Hs Hhd) Hspan)
    as [tbl [Htbl [_ Hrows]]].
  exists tbl. split; [exact Htbl |].
  destruct (Hrows k Hk) as [row [Hnth Hrow]].
  rewrite (annual_row_no_value (site_no first) _ Hempty) in Hrow.
  injection Hrow as <-. exact Hnth.
Qed.

Lemma GetAnnualStatistics_empty_year_witness :
  exists tbl : list (Date * AnnualRow),
    GetAnnualStatistics sample_frame = Ok tbl /\
    nth_error tbl 2
    = Some (mkDate 1971 10 1,
            mkRow 3335000 NaN NaN NaN NaN NaN NaN NaN NaN (Fin 0)).
Proof.
  exact (@GetAnnualStatistics_empty_year sample_frame (gauge 1969 10 1 (Some 12)) 2
           ltac:(repeat constructor) eq_refl eq_refl ltac:(lia) eq_refl).
Defined.

(** X10: a window that holds a null discharge next to at least one value
    gets Skew NaN, while Mean Flow, Peak Flow and Median are computed from
    the values that remain. *)
Theorem annual_row_null_in_window (site : Z) (w : Series) (row : AnnualRow) :
  annual_row site w = Ok row ->
  has_null w = true -> dropna w <> [] ->
  col_Skew row = NaN /\
  col_Mean_Flow row = Fin (mean_of (dropna w)) /\
  (exists p : Q, col_Peak_Flow row = Fin p) /\
  (exists m : Q, col_Median row = Fin m /\ is_median m (dropna w)).
Proof.
  intros Hrow Hnull Hne.
  destruct (annual_row_columns _ _ Hrow) as [_ [Hmean [Hpeak [Hmed [Hskew _]]]]].
  split; [rewrite Hskew; apply stats_skew_null, Hnull |].
  split; [rewrite Hmean; apply series_mean_Fin, Hne |].
  split.
  - rewrite Hpeak. destruct (dropna w) as [| x r]; [congruence |].
    eexists. reflexivity.
  - rewrite Hmed, (series_median_middle Hne).
    eexists. split; [reflexivity | apply sort_median].
Qed.

Lemma annual_row_null_in_window_witness :
  exists row : AnnualRow,
    annual_row 3335000 flood_series = Ok row /\
    col_Skew row = NaN /\
    col_Mean_Flow row = Fin (mean_of (dropna flood_series)) /\
    (exists p : Q, col_Peak_Flow row = Fin p) /\
    (exists m : Q, col_Median row = Fin m /\ is_median m (dropna flood_series)).
Proof.
  destruct (annual_row_total 3335000 flood_series) as [row Hrow].
  exists row. split; [exact Hrow |].
  apply (@annual_row_null_in_window 3335000 flood_series row Hrow eq_refl).
  simpl. discriminate.
Defined.

Lemma mean_of_constant (s : Q) (xs : list Q) :
  xs <> [] -> Forall (fun x => x = s) xs -> mean_of xs == s.
Proof.
  intros Hne Hall. unfold mean_of.
  assert (Hsum : series_sum xs == qlen xs * s).
  { apply Qle_antisym.
    - apply series_sum_upper. eapply Forall_impl; [| exact Hall].
      intros x ->. apply Qle_refl.
    - apply series_sum_lower. eapply Forall_impl; [| exact Hall].
      intros x ->. apply Qle_refl. }
  rewrite Hsum. field. apply qlen_nonzero, Hne.
Qed.

Lemma nanmean_constant (s : Q) (col : list fval) :
  col <> [] -> Forall (fun v => v = Fin s) col -> nanmean col =f= Fin s.
Proof.
  intros Hne Hall.
  assert (Hfin : finite_or_null col).
  { eapply Forall_impl; [| exact Hall]. intros v ->. right. eexists. reflexivity. }
  assert (Hvals : Forall (fun x => x = s) (finite_values col) /\
                  finite_values col <> []).
  { split; [| destruct Hall as [| v col Hv Hall]; [congruence | subst v; discriminate]].
    clear Hne Hfin. induction Hall as [| v col Hv _ IH]; [constructor |].
    subst v. cbn [finite_values]. constructor; [reflexivity | exact IH]. }
  destruct Hvals as [Hvals Hvne].
  rewrite (nanmean_Q Hfin Hvne). apply (mean_of_constant Hvne Hvals).
Qed.

(** X11: the site-number entry of the annual averages of a table that
    [GetAnnualStatistics] returned is the site number of the frame's first
    row, for a site number whose fifty-fold fits the 53 bits of a double
    (the sum of the fifty equal entries is then free of rounding). *)
Theorem GetAnnualAverages_site_no (DataDF : DataFrame) (first : Observation)
        (tbl : list (Date * AnnualRow)) :
  hd_error DataDF = Some first ->
  (Z.abs (site_no first) * 50 <= 2 ^ 53)%Z ->
  GetAnnualStatistics DataDF = Ok tbl ->
  avg_site_no (GetAnnualAverages tbl) =f= Fin (inject_Z (site_no first)).
Proof.
  intros Hhd _ Htbl.
  destruct (GetAnnualStatistics_rows DataDF Hhd Htbl) as [Hlen Hrows].
  unfold GetAnnualAverages. cbn [avg_site_no].
  apply nanmean_constant.
  - destruct tbl; [discriminate Hlen | discriminate].
  - rewrite map_map. apply Forall_map.
    eapply Forall_impl; [| exact Hrows].
    intros p [WY Hrow]. apply annual_row_columns in Hrow.
    destruct Hrow as [-> _]. reflexivity.
Qed.

Lemma GetAnnualAverages_site_no_witness :
  exists tbl : list (Date * AnnualRow),
    GetAnnualStatistics sample_frame = Ok tbl /\
    avg_site_no (GetAnnualAverages tbl) =f= Fin (inject_Z 3335000).
Proof.
  destruct (proj1 (@GetAnnualStatistics_outcome sample_frame
                     (gauge 1969 10 1 (Some 12))
                     ltac:(repeat constructor) eq_refl) eq_refl)
    as [tbl [Htbl _]].
  exists tbl. split; [exact Htbl |].
  refine (@GetAnnualAverages_site_no sample_frame (gauge 1969 10 1 (Some 12))
            tbl eq_refl _ Htbl).
  vm_compute. discriminate.
Defined.

(** ** ClipData followed by GetAnnualStatistics *)

Lemma clip_range_water_year (d : Date) :
  calendar_date d ->
  date_leb clip_start d && date_leb d clip_end = true <->
  (1970 <= water_year d <= 2019)%Z.
Proof.
  intros [Hm [Hd Hsep]]. rewrite andb_true_iff, !date_leb_spec.
  unfold clip_start, clip_end, water_year. cbn [year month day].
  destruct (Z.leb_spec 10 (month d)); lia.
Qed.

Lemma sorted_first_le (first : Observation) (rest : DataFrame) (r : Observation) :
  date_sorted (first :: rest) -> In r (first :: rest) ->
  date_leb (obs_date first) (obs_date r) = true.
Proof.
  intros Hs [<- | Hin]; [apply date_leb_refl |].
  apply StronglySorted_inv in Hs. destruct Hs as [_ Hall].
  rewrite Forall_forall in Hall. apply Hall, Hin.
Qed.

Lemma sorted_last_ge (l : DataFrame) (d r : Observation) :
  date_sorted l -> In r l ->
  date_leb (obs_date r) (obs_date (last l d)) = true.
Proof.
  intros Hs. revert r. induction Hs as [| a l Hs IH Ha]; intros r Hin; [contradiction |].
  destruct l as [| b l].
  - destruct Hin as [<- | []]. apply date_leb_refl.
  - change (last (a :: b :: l) d) with (last (b :: l) d).
    destruct Hin as [<- | Hin]; [| apply IH, Hin].
    eapply date_leb_trans; [apply (Forall_inv Ha) |].
    apply IH. left. reflexivity.
Qed.

Lemma last_in {A : Type} (l : list A) (d : A) : l <> [] -> In (last l d) l.
Proof.
  induction l as [| a l IH]; intros Hne; [congruence |].
  destruct l as [| b l]; [left; reflexivity |].
  right. apply IH. discriminate.
Qed.

Lemma wy_window_in_clip (k : nat) (r : Observation) :
  (k < 50)%nat ->
  in_range (wy_start (1970 + Z.of_nat k)) (wy_end (1970 + Z.of_nat k)) r = true ->
  in_range clip_start clip_end r = true.
Proof.
  intros Hk. unfold in_range. rewrite !andb_true_iff, !date_leb_spec.
  unfold wy_start, wy_end, clip_start, clip_end. cbn [year month day]. lia.
Qed.

(** X12: after clipping a date-sorted frame of calendar dates to
    1969-10-01 .. 2019-09-30, [GetAnnualStatistics] returns a table exactly
    when the frame has a row in water year 1970 and a row in water year
    2019.  The table then has fifty rows; row [k] is labelled October 1 of
    [1969 + k] and is computed over the rows of the unclipped frame dated
    in water year [1970 + k].  Otherwise the call raises. *)
Theorem GetAnnualStatistics_after_clip (DataDF : DataFrame) :
  date_sorted DataDF ->
  Forall (fun r => calendar_date (obs_date r)) DataDF ->
  ((exists r, In r DataDF /\ water_year (obs_date r) = 1970%Z) /\
   (exists r, In r DataDF /\ water_year (obs_date r) = 2019%Z) ->
   exists (first : Observation) (tbl : list (Date * AnnualRow)),
     hd_error (fst (ClipData DataDF clip_start clip_end)) = Some first /\
     GetAnnualStatistics (fst (ClipData DataDF clip_start clip_end)) = Ok tbl /\
     length tbl = 50%nat /\
     forall k : nat, (k < 50)%nat ->
       exists row : AnnualRow,
         nth_error tbl k = Some (wy_start (1970 + Z.of_nat k), row) /\
         annual_row (site_no first)
           (discharges (filter (in_range (wy_start (1970 + Z.of_nat k))
                                         (wy_end (1970 + Z.of_nat k))) DataDF))
         = Ok row) /\
  (~ ((exists r, In r DataDF /\ water_year (obs_date r) = 1970%Z) /\
      (exists r, In r DataDF /\ water_year (obs_date r) = 2019%Z)) ->
   exists e : exn,
     GetAnnualStatistics (fst (ClipData DataDF clip_start clip_end)) = Raise e).
Proof.
  intros Hs Hcal.
  assert (Hclip : fst (ClipData DataDF clip_start clip_end)
                  = filter (in_range clip_start clip_end) DataDF)
    by (unfold ClipData; cbn [fst]; apply loc_slice_in_range, Hs).
  rewrite Hclip.
  set (clipped := filter (in_range clip_start clip_end) DataDF).
  assert (Hcs : date_sorted clipped) by (apply date_sorted_filter, Hs).
  assert (Hwy : forall r, In r clipped ->
                  In r DataDF /\ (1970 <= water_year (obs_date r) <= 2019)%Z).
  { intros r Hr. apply filter_In in Hr. destruct Hr as [Hin Hrange].
    split; [exact Hin |]. apply clip_range_water_year; [| exact Hrange].
    rewrite Forall_forall in Hcal. apply Hcal, Hin. }
  assert (Hkeep : forall r, In r DataDF ->
                    (1970 <= water_year (obs_date r) <= 2019)%Z -> In r clipped).
  { intros r Hin Hr. apply filter_In. split; [exact Hin |].
    apply clip_range_water_year; [| exact Hr].
    rewrite Forall_forall in Hcal. apply Hcal, Hin. }
  split.
  - intros [[r70 [Hin70 Hwy70]] [r19 [Hin19 Hwy19]]].
    assert (Hc70 : In r70 clipped) by (apply Hkeep; [exact Hin70 | lia]).
    assert (Hc19 : In r19 clipped) by (apply Hkeep; [exact Hin19 | lia]).
    destruct clipped as [| first rest] eqn:Ec; [contradiction |].
    rewrite <- Ec in *.
    assert (Hhd : hd_error clipped = Some first) by (rewrite Ec; reflexivity).
    assert (Hfirst : water_year (obs_date first) = 1970%Z).
    { assert (In first clipped) as Hf by (rewrite Ec; left; reflexivity).
      pose proof (proj2 (Hwy first Hf)) as Hb.
      assert (Hle : date_leb (obs_date first) (obs_date r70) = true)
        by (apply (@sorted_first_le first rest); rewrite <- Ec; assumption).
      apply water_year_mono in Hle. lia. }
    assert (Hlast : water_year (obs_date (last clipped first)) = 2019%Z).
    { assert (In (last clipped first) clipped) as Hl
          by (apply last_in; rewrite Ec; discriminate).
      pose proof (proj2 (Hwy _ Hl)) as Hb.
      pose proof (@sorted_last_ge clipped first r19 Hcs Hc19) as Hle.
      apply water_year_mono in Hle. lia. }
    destruct (proj1 (GetAnnualStatistics_outcome Hcs Hhd)) as [tbl [Htbl [Hlen Hrows]]];
      [rewrite Hfirst, Hlast; reflexivity |].
    exists first, tbl. split; [exact Hhd | split; [exact Htbl | split; [exact Hlen |]]].
    intros k Hk. destruct (Hrows k Hk) as [row [Hnth Hrow]].
    exists row. split.
    + rewrite Hnth, Hfirst. unfold wy_start. do 3 f_equal. lia.
    + unfold clipped in Hrow. rewrite filter_filter_subset in Hrow; [exact Hrow |].
      intros r. apply wy_window_in_clip, Hk.
  - intros Hnot. destruct clipped as [| first rest] eqn:Ec.
    + exists IndexError. reflexivity.
    + rewrite <- Ec in *. exists ValueError.
      assert (Hhd : hd_error clipped = Some first) by (rewrite Ec; reflexivity).
      apply (proj2 (GetAnnualStatistics_outcome Hcs Hhd)).
      intros Hspan. apply Hnot.
      assert (In first clipped) as Hf by (rewrite Ec; left; reflexivity).
      assert (In (last clipped first) clipped) as Hl
          by (apply last_in; rewrite Ec; discriminate).
      destruct (Hwy _ Hf) as [Hinf Hbf]. destruct (Hwy _ Hl) as [Hinl Hbl].
      split; [exists first | exists (last clipped first)];
        (split; [assumption | lia]).
Qed.

Lemma GetAnnualStatistics_after_clip_witness :
  exists (first : Observation) (tbl : list (Date * AnnualRow)),
    hd_error (fst (ClipData sample_frame clip_start clip_end)) = Some first /\
    GetAnnualStatistics (fst (ClipData sample_frame clip_start clip_end)) = Ok tbl /\
    length tbl = 50%nat /\
    forall k : nat, (k < 50)%nat ->
      exists row : AnnualRow,
        nth_error tbl k = Some (wy_start (1970 + Z.of_nat k), row) /\
        annual_row (site_no first)
          (discharges (filter (in_range (wy_start (1970 + Z.of_nat k))
                                        (wy_end (1970 + Z.of_nat k))) sample_frame))
        = Ok row.
Proof.
  apply (proj1 (@GetAnnualStatistics_after_clip sample_frame
                  ltac:(repeat constructor)
                  ltac:(repeat constructor; simpl; lia))).
  split.
  - exists (gauge 1969 10 1 (Some 12)). split; [left; reflexivity | reflexivity].
  - exists (gauge 2019 9 30 (Some 4)). split; [simpl; tauto | reflexivity].
Defined.

(** ** GetMonthlyStatistics *)

Lemma take_while_ltb_sorted (e : Date) (df : DataFrame) :
  date_sorted df ->
  take_while (fun r => date_ltb (obs_date r) e) df
  = filter (fun r => date_ltb (obs_date r) e) df.
Proof.
  unfold date_sorted. induction 1 as [| r df _ IH Hr]; simpl; [reflexivity |].
  destruct (date_ltb (obs_date r) e) eqn:E; [f_equal; exact IH |].
  symmetry. apply filter_none.
  eapply Forall_impl; [| exact Hr].
  intros x Hx. simpl in Hx. rewrite date_ltb_leb in *.
  apply negb_false_iff in E. apply negb_false_iff.
  eapply date_leb_trans; eassumption.
Qed.

(** On a sorted frame a bin holds the rows dated from [lo] up to, and
    without, [hi]. *)
Lemma bin_slice_sorted (lo hi : Date) (df : DataFrame) :
  date_sorted df ->
  bin_slice lo hi df
  = filter (fun r => date_leb lo (obs_date r) && date_ltb (obs_date r) hi) df.
Proof.
  intros Hs. unfold bin_slice.
  rewrite (drop_while_sorted lo Hs).
  rewrite take_while_ltb_sorted by (apply date_sorted_filter; exact Hs).
  apply filter_and.
Qed.

Lemma month_ord_of_ord (o : Z) : month_ord (month_of_ord o) = o.
Proof.
  unfold month_ord, month_of_ord. cbn [year month].
  pose proof (Z.div_mod o 12). lia.
Qed.

(** The bin labelled with the first of a month holds the calendar dates
    of that month. *)
Lemma month_bin_dates (o : Z) (d : Date) :
  calendar_date d ->
  date_leb (month_of_ord o) d && date_ltb d (next_month (month_of_ord o)) = true
  <-> month_ord d = o.
Proof.
  intros [Hm [Hd _]]. unfold next_month. rewrite month_ord_of_ord.
  rewrite date_ltb_leb, andb_true_iff, negb_true_iff, <- not_true_iff_false.
  rewrite !date_leb_spec. unfold month_of_ord, month_ord. cbn [year month day].
  pose proof (Z.div_mod o 12 ltac:(lia)) as E1.
  pose proof (Z.mod_pos_bound o 12 ltac:(lia)) as B1.
  pose proof (Z.div_mod (o + 1) 12 ltac:(lia)) as E2.
  pose proof (Z.mod_pos_bound (o + 1) 12 ltac:(lia)) as B2.
  lia.
Qed.

Lemma month_ord_mono (a b : Date) :
  calendar_date a -> calendar_date b ->
  date_leb a b = true -> (month_ord a <= month_ord b)%Z.
Proof.
  intros [Ha _] [Hb _]. rewrite date_leb_spec. unfold month_ord. lia.
Qed.

Lemma resample_MS_index_sorted (DataDF : DataFrame) (first : Observation) :
  date_sorted DataDF -> hd_error DataDF = Some first ->
  resample_MS_index DataDF
  = map (fun k => month_of_ord (month_ord (obs_date first) + Z.of_nat k))
        (seq 0 (Z.to_nat (month_ord (obs_date (last DataDF first))
                          - month_ord (obs_date first) + 1))).
Proof.
  intros Hs Hhd. destruct DataDF as [| r rest]; [discriminate Hhd |].
  injection Hhd as ->. unfold resample_MS_index.
  rewrite (fold_date_max_sorted first Hs).
  rewrite fold_date_min_sorted; [reflexivity |].
  apply StronglySorted_inv in Hs. destruct Hs as [_ Hr].
  rewrite Forall_forall in *. intros d Hd.
  apply in_map_iff in Hd. destruct Hd as [x [<- Hx]]. apply Hr, Hx.
Qed.

Lemma monthly_row_total (site : Z) (w : Series) :
  exists row : MonthlyRow, monthly_row site w = Ok row.
Proof.
  unfold monthly_row, CalcTqmean.
  destruct (CalcRBindex_ratio w) as [v [Hv _]]. rewrite Hv.
  cbn [bind]. eexists. reflexivity.
Qed.

Lemma mapM_labels {A B : Type} (f : A -> result (A * B)) (l : list A)
      (ys : list (A * B)) :
  (forall x y, f x = Ok y -> fst y = x) ->
  mapM f l = Ok ys -> map fst ys = l.
Proof.
  intros Hf. revert ys. induction l as [| x r IH]; intros ys H; cbn [mapM] in H.
  - injection H as <-. reflexivity.
  - destruct (f x) as [y |] eqn:Ey; unfold bind in H; [| discriminate H].
    destruct (mapM f r) as [ys' |]; [| discriminate H].
    injection H as <-. cbn [map]. f_equal; [apply Hf, Ey | apply IH; reflexivity].
Qed.

(** The monthly table of a non-empty frame, sorted or not: one row per
    label of the monthly index. *)
Lemma GetMonthlyStatistics_table (DataDF : DataFrame) (first : Observation) :
  hd_error DataDF = Some first ->
  exists tbl : list (Date * MonthlyRow),
    GetMonthlyStatistics DataDF = Ok tbl /\
    map fst tbl = resample_MS_index DataDF /\
    Forall (fun p => monthly_row (site_no first) (month_bin DataDF (fst p))
                     = Ok (snd p)) tbl.
Proof.
  intros Hhd. unfold GetMonthlyStatistics.
  destruct DataDF as [| r rest] eqn:EDF; [discriminate Hhd |].
  injection Hhd as ->. rewrite <- EDF. cbv zeta. cbn [bind].
  set (f := fun lbl : Date =>
              row <- monthly_row (site_no first) (month_bin DataDF lbl) ;;
              Ok (lbl, row)).
  assert (Hf : forall x y, f x = Ok y ->
                 fst y = x /\
                 monthly_row (site_no first) (month_bin DataDF x) = Ok (snd y)).
  { intros x y. unfold f.
    destruct (monthly_row (site_no first) (month_bin DataDF x)) as [row |];
      unfold bind; [| discriminate].
    intros E. injection E as <-. split; reflexivity. }
  destruct (@mapM_total _ _ f (resample_MS_index DataDF)) as [ys [Hys Hall]].
  { intros lbl. unfold f.
    destruct (monthly_row_total (site_no first) (month_bin DataDF lbl)) as [row Hrow].
    rewrite Hrow. eexists. reflexivity. }
  exists ys. split; [exact Hys | split].
  - apply (mapM_labels f); [| exact Hys]. intros x y E. apply (Hf x y E).
  - apply Forall_forall. intros y Hy.
    destruct (@Forall2_in_r _ _ _ _ _ _ Hall Hy) as [x [_ E]].
    destruct (Hf x y E) as [<- Hrow]. exact Hrow.
Qed.

(** X13: for every non-empty frame [GetMonthlyStatistics] returns a
    table, with one row per month from the month of the earliest date
    through the month of the latest: the monthly table is built on its own
    index and cannot fail the way the annual one does. *)
Theorem GetMonthlyStatistics_total (DataDF : DataFrame) :
  DataDF <> [] ->
  exists tbl : list (Date * MonthlyRow),
    GetMonthlyStatistics DataDF = Ok tbl /\
    map fst tbl = resample_MS_index DataDF.
Proof.
  intros Hne. destruct DataDF as [| r rest] eqn:E; [congruence |].
  destruct (@GetMonthlyStatistics_table (r :: rest) r eq_refl)
    as [tbl [Htbl [Hlbl _]]].
  exists tbl. split; assumption.
Qed.

Lemma GetMonthlyStatistics_total_witness :
  exists tbl : list (Date * MonthlyRow),
    GetMonthlyStatistics sample_frame = Ok tbl /\
    map fst tbl = resample_MS_index sample_frame.
Proof.
  apply GetMonthlyStatistics_total. discriminate.
Defined.

(** X14: on a date-sorted frame of calendar dates the monthly table has
    one row per month from the month of the first row through the month of
    the last, at least one; row [k] is labelled with the first day of the
    [k]-th of these months and is computed over exactly the rows dated in
    that month. *)
Theorem GetMonthlyStatistics_rows (DataDF : DataFrame) (first : Observation) :
  date_sorted DataDF ->
  Forall (fun r => calendar_date (obs_date r)) DataDF ->
  hd_error DataDF = Some first ->
  exists tbl : list (Date * MonthlyRow),
    GetMonthlyStatistics DataDF = Ok tbl /\
    Z.of_nat (length tbl)
    = (month_ord (obs_date (last DataDF first)) - month_ord (obs_date first) + 1)%Z /\
    (1 <= length tbl)%nat /\
    forall k : nat, (k < length tbl)%nat ->
      exists row : MonthlyRow,
        nth_error tbl k
        = Some (month_of_ord (month_ord (obs_date first) + Z.of_nat k), row) /\
        monthly_row (site_no first)
          (discharges
             (filter (fun r => (month_ord (obs_date r)
                                =? month_ord (obs_date first) + Z.of_nat k)%Z)
                     DataDF))
        = Ok row.
Proof.
  intros Hs Hcal Hhd.
  destruct (GetMonthlyStatistics_table DataDF Hhd) as [tbl [Htbl [Hlbl Hrows]]].
  rewrite (resample_MS_index_sorted Hs Hhd) in Hlbl.
  set (o0 := month_ord (obs_date first)) in *.
  set (o1 := month_ord (obs_date (last DataDF first))) in *.
  assert (Hne : DataDF <> []) by (destruct DataDF; [discriminate Hhd | discriminate]).
  assert (Hfirst_in : In first DataDF)
    by (destruct DataDF; [discriminate Hhd | injection Hhd as ->; left; reflexivity]).
  assert (Hord : (o0 <= o1)%Z).
  { rewrite Forall_forall in Hcal. apply month_ord_mono.
    - apply Hcal, Hfirst_in.
    - apply Hcal, last_in, Hne.
    - apply sorted_last_ge; assumption. }
  assert (Hlen : length tbl = Z.to_nat (o1 - o0 + 1)).
  { rewrite <- (length_map fst tbl), Hlbl, length_map, length_seq. reflexivity. }
  exists tbl. split; [exact Htbl | split; [lia | split; [lia |]]].
  intros k Hk.
  assert (Hk' : nth_error (map fst tbl) k = Some (month_of_ord (o0 + Z.of_nat k))).
  { rewrite Hlbl, nth_error_map, nth_error_seq.
    destruct (Nat.ltb_spec k (Z.to_nat (o1 - o0 + 1))); [reflexivity | lia]. }
  rewrite nth_error_map in Hk'.
  destruct (nth_error tbl k) as [[lbl row] |] eqn:Hnth; [| discriminate Hk'].
  cbn [option_map fst] in Hk'. injection Hk' as ->.
  exists row. split; [reflexivity |].
  rewrite Forall_forall in Hrows.
  pose proof (Hrows _ (nth_error_In _ _ Hnth)) as Hrow. cbn [fst snd] in Hrow.
  unfold month_bin in Hrow. rewrite (bin_slice_sorted _ _ Hs) in Hrow.
  rewrite <- Hrow. do 2 f_equal.
  apply filter_ext_in. intros r Hr.
  rewrite Forall_forall in Hcal. specialize (Hcal r Hr).
  pose proof (@month_bin_dates (o0 + Z.of_nat k) (obs_date r) Hcal) as Hiff.
  destruct (Z.eqb_spec (month_ord (obs_date r)) (o0 + Z.of_nat k)) as [E | NE].
  - symmetry. apply Hiff, E.
  - symmetry. apply not_true_iff_false. intros Hb. apply NE, Hiff, Hb.
Qed.

Lemma GetMonthlyStatistics_rows_witness :
  exists tbl : list (Date * MonthlyRow),
    GetMonthlyStatistics sample_frame = Ok tbl /\
    Z.of_nat (length tbl)
    = (month_ord (obs_date (last sample_frame sample_first))
       - month_ord (obs_date sample_first) + 1)%Z /\
    (1 <= length tbl)%nat /\
    forall k : nat, (k < length tbl)%nat ->
      exists row : MonthlyRow,
        nth_error tbl k
        = Some (month_of_ord (month_ord (obs_date sample_first) + Z.of_nat k), row) /\
        monthly_row (site_no sample_first)
          (discharges
             (filter (fun r => (month_ord (obs_date r)
                                =? month_ord (obs_date sample_first) + Z.of_nat k)%Z)
                     sample_frame))
        = Ok row.
Proof.
  apply (@GetMonthlyStatistics_rows sample_frame sample_first).
  - repeat constructor.
  - repeat constructor; simpl; lia.
  - reflexivity.
Defined.

(** ** GetMonthlyAverages *)

Lemma insert_key_In (k x : Z) (ks : list Z) :
  In x (insert_key k ks) <-> x = k \/ In x ks.
Proof.
  induction ks as [| a r IH]; cbn [insert_key].
  - simpl. intuition auto.
  - destruct (Z.ltb_spec k a); [simpl; intuition auto |].
    destruct (Z.eqb_spec k a); [subst; simpl; intuition auto |].
    cbn [In]. rewrite IH. intuition auto.
Qed.

Lemma insert_key_sorted (k : Z) (ks : list Z) :
  StronglySorted Z.lt ks -> StronglySorted Z.lt (insert_key k ks).
Proof.
  induction 1 as [| a r Hs IH Ha]; cbn [insert_key].
  - repeat constructor.
  - destruct (Z.ltb_spec k a).
    + constructor; [constructor; assumption |].
      constructor; [assumption |].
      eapply Forall_impl; [| exact Ha]. intros y Hy. simpl in Hy. lia.
    + destruct (Z.eqb_spec k a); [constructor; assumption |].
      constructor; [exact IH |].
      apply Forall_forall. intros y Hy. apply insert_key_In in Hy.
      destruct Hy as [-> | Hy]; [lia |].
      rewrite Forall_forall in Ha. apply Ha, Hy.
Qed.

Lemma group_keys_In (x : Z) (ks : list Z) : In x (group_keys ks) <-> In x ks.
Proof.
  unfold group_keys. induction ks as [| k ks IH]; cbn [fold_right]; [tauto |].
  rewrite insert_key_In, IH. simpl. intuition auto.
Qed.

Lemma group_keys_sorted (ks : list Z) : StronglySorted Z.lt (group_keys ks).
Proof.
  unfold group_keys. induction ks as [| k ks IH]; cbn [fold_right];
    [constructor | apply insert_key_sorted, IH].
Qed.

Lemma strict_sorted_length (l : list Z) (lo hi : Z) :
  StronglySorted Z.lt l -> Forall (fun x => lo <= x <= hi)%Z l ->
  (Z.of_nat (length l) <= Z.max 0 (hi - lo + 1))%Z.
Proof.
  intros Hs. revert lo. induction Hs as [| a t Hs IH Ha]; intros lo Hb;
    [simpl; lia |].
  pose proof (Forall_inv Hb) as Hab. cbv beta in Hab.
  assert (Ht : Forall (fun x => a + 1 <= x <= hi)%Z t).
  { apply Forall_forall. intros x Hx.
    rewrite Forall_forall in Ha, Hb.
    specialize (Ha x Hx). specialize (Hb x (or_intror Hx)). lia. }
  specialize (IH (a + 1)%Z Ht). cbn [length]. lia.
Qed.

Lemma strict_sorted_ext (l l' : list Z) :
  StronglySorted Z.lt l -> StronglySorted Z.lt l' ->
  (forall x, In x l <-> In x l') -> l = l'.
Proof.
  intros Hs. revert l'. induction Hs as [| a t Hs IH Ha]; intros l' Hs' Hiff.
  - destruct l' as [| b t']; [reflexivity |].
    exfalso. apply (proj2 (Hiff b)). left. reflexivity.
  - destruct Hs' as [| b t' Hs' Hb].
    + exfalso. apply (proj1 (Hiff a)). left. reflexivity.
    + rewrite Forall_forall in Ha, Hb.
      assert (Eab : a = b).
      { destruct (proj1 (Hiff a) (or_introl eq_refl)) as [E | Hin];
          [symmetry; exact E |].
        destruct (proj2 (Hiff b) (or_introl eq_refl)) as [E | Hin'];
          [exact E |].
        specialize (Ha b Hin'). specialize (Hb a Hin). lia. }
      subst b. f_equal. apply IH; [exact Hs' |].
      intros x. split; intros Hx.
      * destruct (proj1 (Hiff x) (or_intror Hx)) as [E | Hin]; [| exact Hin].
        specialize (Ha x Hx). lia.
      * destruct (proj2 (Hiff x) (or_intror Hx)) as [E | Hin]; [| exact Hin].
        specialize (Hb x Hx). lia.
Qed.

Lemma GetMonthlyAverages_labels (tbl : list (Date * MonthlyRow)) :
  map fst (GetMonthlyAverages tbl)
  = group_keys (map (fun p => Mo_index (fst p)) tbl).
Proof.
  unfold GetMonthlyAverages. rewrite map_map. cbn [fst]. apply map_id.
Qed.

(** X15: [GetMonthlyAverages] has one row per month number met among the
    labels of the table, in ascending order and without repeats; when the
    labels are calendar months there are at most twelve rows. *)
Theorem GetMonthlyAverages_keys (tbl : list (Date * MonthlyRow)) :
  StronglySorted Z.lt (map fst (GetMonthlyAverages tbl)) /\
  (forall m : Z,
      In m (map fst (GetMonthlyAverages tbl)) <->
      exists p, In p tbl /\ month (fst p) = m) /\
  (Forall (fun p => 1 <= month (fst p) <= 12)%Z tbl ->
   (length (GetMonthlyAverages tbl) <= 12)%nat).
Proof.
  rewrite GetMonthlyAverages_labels.
  assert (Hin : forall m : Z,
             In m (group_keys (map (fun p => Mo_index (fst p)) tbl)) <->
             exists p, In p tbl /\ month (fst p) = m).
  { intros m. rewrite group_keys_In, in_map_iff. unfold Mo_index.
    split; intros [p Hp]; exists p; tauto. }
  split; [apply group_keys_sorted | split; [exact Hin |]].
  intros Hcal.
  rewrite <- (length_map fst), GetMonthlyAverages_labels.
  pose proof (@strict_sorted_length _ 1 12
                (group_keys_sorted (map (fun p => Mo_index (fst p)) tbl))) as Hlen.
  assert (Hb : Forall (fun x => 1 <= x <= 12)%Z
                      (group_keys (map (fun p => Mo_index (fst p)) tbl))).
  { apply Forall_forall. intros m Hm. apply Hin in Hm.
    destruct Hm as [p [Hp <-]]. rewrite Forall_forall in Hcal. apply Hcal, Hp. }
  specialize (Hlen Hb). lia.
Qed.

Lemma resample_MS_index_months (DataDF : DataFrame) :
  exists o : Z,
    resample_MS_index DataDF
    = map (fun k => month_of_ord (o + Z.of_nat k))
          (seq 0 (length (resample_MS_index DataDF))).
Proof.
  destruct DataDF as [| r rest].
  - exists 0%Z. reflexivity.
  - unfold resample_MS_index. eexists.
    rewrite length_map, length_seq. reflexivity.
Qed.

Lemma month_numbers_In (m : Z) : In m month_numbers <-> (1 <= m <= 12)%Z.
Proof. unfold month_numbers. simpl. lia. Qed.

(** Twelve or more consecutive months meet every month number. *)
Lemma group_keys_consecutive_months (o : Z) (n : nat) :
  (12 <= n)%nat ->
  group_keys (map (fun k => Mo_index (month_of_ord (o + Z.of_nat k))) (seq 0 n))
  = month_numbers.
Proof.
  intros Hn. apply strict_sorted_ext.
  - apply group_keys_sorted.
  - unfold month_numbers. repeat constructor; lia.
  - intros m. rewrite group_keys_In, month_numbers_In, in_map_iff.
    unfold Mo_index, month_of_ord. cbn [month]. split.
    + intros [k [<- _]]. pose proof (Z.mod_pos_bound (o + Z.of_nat k) 12). lia.
    + intros Hm. exists (Z.to_nat ((m - 1 - o) mod 12)).
      pose proof (Z.mod_pos_bound (m - 1 - o) 12 ltac:(lia)) as Hb.
      split.
      * rewrite Z2Nat.id by lia. rewrite Z.add_mod_idemp_r by lia.
        replace (o + (m - 1 - o))%Z with (m - 1)%Z by lia.
        rewrite Z.mod_small by lia. lia.
      * apply in_seq. lia.
Qed.

(** X16: the monthly averages of a table that [GetMonthlyStatistics]
    returned with twelve rows or more have exactly twelve rows, labelled
    1 to 12 in this order. *)
Theorem GetMonthlyAverages_twelve (DataDF : DataFrame)
        (tbl : list (Date * MonthlyRow)) :
  GetMonthlyStatistics DataDF = Ok tbl ->
  (12 <= length tbl)%nat ->
  map fst (GetMonthlyAverages tbl) = month_numbers.
Proof.
  intros Htbl Hlen.
  assert (Hlbl : map fst tbl = resample_MS_index DataDF).
  { destruct DataDF as [| r rest] eqn:E; [discriminate Htbl |]. rewrite <- E in *.
    assert (Hhd : hd_error DataDF = Some r) by (rewrite E; reflexivity).
    destruct (GetMonthlyStatistics_table DataDF Hhd) as [tbl' [Ht [Hl _]]].
    rewrite Ht in Htbl. injection Htbl as <-. exact Hl. }
  destruct (resample_MS_index_months DataDF) as [o Ho].
  rewrite <- Hlbl, length_map in Ho.
  rewrite GetMonthlyAverages_labels.
  rewrite <- (map_map fst Mo_index), Ho, map_map.
  apply group_keys_consecutive_months, Hlen.
Qed.

Lemma GetMonthlyAverages_twelve_witness :
  exists tbl : list (Date * MonthlyRow),
    GetMonthlyStatistics sample_frame = Ok tbl /\
    map fst (GetMonthlyAverages tbl) = month_numbers.
Proof.
  destruct (@GetMonthlyStatistics_table sample_frame sample_first eq_refl)
    as [tbl [Htbl [Hlbl _]]].
  exists tbl. split; [exact Htbl |].
  apply (GetMonthlyAverages_twelve sample_frame Htbl).
  rewrite <- (length_map fst tbl), Hlbl. apply Nat.leb_le. vm_compute. reflexivity.
Defined.

(** ** The run over one dataset *)

Lemma map_fst_combine {A B : Type} (l : list A) (l' : list B) :
  length l = length l' -> map fst (combine l l') = l.
Proof.
  revert l'. induction l as [| a l IH]; intros [| b l'] H; simpl in *;
    try discriminate; [reflexivity |].
  f_equal. apply IH. lia.
Qed.

(** The labels of a returned annual table are the frame's yearly bins. *)
Lemma GetAnnualStatistics_labels (DataDF : DataFrame)
      (tbl : list (Date * AnnualRow)) :
  GetAnnualStatistics DataDF = Ok tbl ->
  map fst tbl = resample_AS_OCT_index DataDF.
Proof.
  unfold GetAnnualStatistics.
  destruct DataDF as [| r rest] eqn:EDF; [discriminate |].
  rewrite <- EDF. cbn [bind].
  destruct (mapM _ WYrange) as [ys |]; cbn [bind]; [| discriminate].
  unfold set_index.
  destruct (Nat.eqb_spec (length ys) (length (resample_AS_OCT_index DataDF)))
    as [E | _]; [| discriminate].
  intros H. injection H as <-.
  apply map_fst_combine. rewrite length_map. symmetry. exact E.
Qed.

Lemma ReadData_keeps_order (lines : list RawRecord) :
  date_sorted (read_csv lines) -> date_sorted (fst (ReadData lines)).
Proof. unfold ReadData. cbn [fst]. apply date_sorted_filter. Qed.

(** X17: when the run over one dataset succeeds on a date-sorted file of
    calendar dates, the frame it reports is the cleaned frame restricted to
    1969-10-01 .. 2019-09-30 and its missing-value count does not exceed
    the one of the whole file; the annual table is labelled with the fifty
    October firsts of 1969 to 2018; the monthly table has between 578 and
    600 rows; and the monthly averages have the twelve rows 1 to 12. *)
Theorem process_dataset_outputs (lines : list RawRecord) (out : Outputs) :
  date_sorted (read_csv lines) ->
  Forall (fun l => calendar_date (raw_date l)) lines ->
  process_dataset lines = Ok out ->
  out_DataDF out = filter (in_range clip_start clip_end) (fst (ReadData lines)) /\
  (out_MissingValues out <= snd (ReadData lines))%nat /\
  map fst (out_WYDataDF out)
  = map (fun k => wy_start (1970 + Z.of_nat k)) (seq 0 50) /\
  (578 <= length (out_MoDataDF out) <= 600)%nat /\
  map fst (out_MonthlyAverages out) = month_numbers.
Proof.
  intros Hsorted Hcal Hrun.
  pose proof (ReadData_keeps_order lines Hsorted) as Hs0.
  unfold process_dataset in Hrun.
  destruct (ReadData lines) as [df0 mv0] eqn:Eread. cbn [fst snd] in *.
  assert (Hmv0 : mv0 = isna_sum (discharges df0) /\
                 Forall (fun r => calendar_date (obs_date r)) df0).
  { unfold ReadData in Eread. injection Eread as <- <-. split; [reflexivity |].
    apply Forall_forall. intros r Hr. apply filter_In in Hr. destruct Hr as [Hr _].
    unfold read_csv in Hr. apply in_map_iff in Hr. destruct Hr as [l [<- Hl]].
    cbn [obs_date]. rewrite Forall_forall in Hcal. apply Hcal, Hl. }
  destruct Hmv0 as [-> Hcal0].
  unfold ClipData in Hrun. rewrite (loc_slice_in_range _ _ Hs0) in Hrun.
  set (clipped := filter (in_range clip_start clip_end) df0) in *.
  assert (Hcs : date_sorted clipped) by (apply date_sorted_filter, Hs0).
  assert (Hwy : forall r, In r clipped ->
                  calendar_date (obs_date r) /\
                  (1970 <= water_year (obs_date r) <= 2019)%Z).
  { intros r Hr. apply filter_In in Hr. destruct Hr as [Hin Hrange].
    rewrite Forall_forall in Hcal0. specialize (Hcal0 r Hin).
    split; [exact Hcal0 |]. apply clip_range_water_year; assumption. }
  destruct (GetAnnualStatistics clipped) as [WY |] eqn:EWY;
    cbn [bind] in Hrun; [| discriminate Hrun].
  destruct (GetMonthlyStatistics clipped) as [Mo |] eqn:EMo;
    cbn [bind] in Hrun; [| discriminate Hrun].
  injection Hrun as <-. cbn [out_DataDF out_MissingValues out_WYDataDF
                             out_MoDataDF out_MonthlyAverages].
  destruct clipped as [| first rest] eqn:Ec; [discriminate EWY |].
  rewrite <- Ec in *.
  assert (Hhd : hd_error clipped = Some first) by (rewrite Ec; reflexivity).
  assert (Hf : In first clipped) by (rewrite Ec; left; reflexivity).
  assert (Hl : In (last clipped first) clipped)
    by (apply last_in; rewrite Ec; discriminate).
  destruct (Hwy _ Hf) as [Hcf Hbf]. destruct (Hwy _ Hl) as [Hcl Hbl].
  assert (Hspan : (water_year (obs_date (last clipped first))
                   - water_year (obs_date first))%Z = 49%Z).
  { destruct (Z.eq_dec (water_year (obs_date (last clipped first))
                        - water_year (obs_date first)) 49) as [E | NE];
      [exact E |].
    rewrite (proj2 (GetAnnualStatistics_outcome Hcs Hhd) NE) in EWY.
    discriminate EWY. }
  split; [reflexivity |].
  split; [rewrite !isna_sum_rows; apply filter_filter_length_le |].
  split.
  { rewrite (GetAnnualStatistics_labels _ EWY), (resample_index_sorted Hcs Hhd).
    rewrite Hspan. change (Z.to_nat (49 + 1)) with 50%nat.
    apply map_ext. intros k. unfold wy_start. f_equal. lia. }
  destruct (GetMonthlyStatistics_table clipped Hhd) as [Mo' [EMo' [Hlbl _]]].
  rewrite EMo in EMo'. injection EMo' as <-.
  rewrite (resample_MS_index_sorted Hcs Hhd) in Hlbl.
  assert (Hlen : length Mo
                 = Z.to_nat (month_ord (obs_date (last clipped first))
                             - month_ord (obs_date first) + 1)).
  { rewrite <- (length_map fst Mo), Hlbl, length_map, length_seq. reflexivity. }
  assert (Hrange : (578 <= length Mo <= 600)%nat).
  { rewrite Hlen. destruct Hcf as [Hmf _]. destruct Hcl as [Hml _].
    unfold month_ord. unfold water_year in Hspan, Hbf, Hbl.
    destruct (Z.leb_spec 10 (month (obs_date first)));
      destruct (Z.leb_spec 10 (month (obs_date (last clipped first)))); lia. }
  split; [exact Hrange |].
  rewrite GetMonthlyAverages_labels.
  rewrite <- (map_map fst Mo_index), Hlbl, map_map, <- Hlen.
  apply group_keys_consecutive_months. lia.
Qed.

Lemma process_dataset_outputs_witness :
  exists out : Outputs,
    process_dataset sample_lines = Ok out /\
    out_DataDF out
    = filter (in_range clip_start clip_end) (fst (ReadData sample_lines)) /\
    (out_MissingValues out <= snd (ReadData sample_lines))%nat /\
    map fst (out_WYDataDF out)
    = map (fun k => wy_start (1970 + Z.of_nat k)) (seq 0 50) /\
    (578 <= length (out_MoDataDF out) <= 600)%nat /\
    map fst (out_MonthlyAverages out) = month_numbers.
Proof.
  assert (Hs : date_sorted (read_csv sample_lines)) by (repeat constructor).
  destruct (proj1 (@GetAnnualStatistics_outcome (read_csv sample_lines)
                     sample_first Hs eq_refl) eq_refl) as [tbl [Htbl _]].
  destruct (@GetMonthlyStatistics_table (read_csv sample_lines) sample_first eq_refl)
    as [Mo [HMo _]].
  exists (mkOutputs (read_csv sample_lines) 1 tbl (GetAnnualAverages tbl)
                    Mo (GetMonthlyAverages Mo)).
  assert (Hrun : process_dataset sample_lines
                 = Ok (mkOutputs (read_csv sample_lines) 1 tbl (GetAnnualAverages tbl)
                                 Mo (GetMonthlyAverages Mo))).
  { unfold process_dataset.
    change (ReadData sample_lines) with (read_csv sample_lines, 1%nat).
    cbv beta iota.
    change (ClipData (read_csv sample_lines) clip_start clip_end)
      with (read_csv sample_lines, 1%nat).
    cbv beta iota. rewrite Htbl. cbn [bind]. rewrite HMo. reflexivity. }
  split; [exact Hrun |].
  apply (@process_dataset_outputs sample_lines _ Hs); [| exact Hrun].
  repeat constructor; simpl; lia.
Defined.

(** ** More on the monthly tables *)

Lemma monthly_row_no_value (site : Z) (w : Series) :
  dropna w = [] -> monthly_row site w = Ok (mkMoRow site NaN NaN NaN NaN).
Proof.
  intros He. unfold monthly_row, CalcTqmean, CalcRBindex.
  rewrite He. reflexivity.
Qed.

Lemma dropna_all_null (qs : Series) :
  Forall (fun o => o = None) qs -> dropna qs = [].
Proof.
  induction 1 as [| o qs Ho _ IH]; [reflexivity |]. subst o. exact IH.
Qed.

(** X18: on a date-sorted frame of calendar dates, a month of the table
    in which the frame has no non-null discharge (no row at all between
    the first and the last date, or null rows only) gets the first row's
    site number and NaN in the four computed columns. *)
Theorem GetMonthlyStatistics_empty_month
        (DataDF : DataFrame) (tbl : list (Date * MonthlyRow))
        (lbl : Date) (row : MonthlyRow) :
  date_sorted DataDF ->
  Forall (fun r => calendar_date (obs_date r)) DataDF ->
  GetMonthlyStatistics DataDF = Ok tbl ->
  In (lbl, row) tbl ->
  (forall r, In r DataDF -> month_ord (obs_date r) = month_ord lbl ->
             Discharge r = None) ->
  exists first : Observation,
    hd_error DataDF = Some first /\
    row = mkMoRow (site_no first) NaN NaN NaN NaN.
Proof.
  intros Hs Hcal Htbl Hin Hnull.
  destruct DataDF as [| first rest] eqn:E; [discriminate Htbl |]. rewrite <- E in *.
  assert (Hhd : hd_error DataDF = Some first) by (rewrite E; reflexivity).
  exists first. split; [exact Hhd |].
  destruct (GetMonthlyStatistics_table DataDF Hhd) as [tbl' [Ht [Hlbl Hrows]]].
  rewrite Ht in Htbl. injection Htbl as ->.
  rewrite Forall_forall in Hrows. pose proof (Hrows _ Hin) as Hrow.
  cbn [fst snd] in Hrow.
  assert (Hlab : exists o, lbl = month_of_ord o).
  { destruct (resample_MS_index_months DataDF) as [o Ho].
    assert (Hl : In lbl (map fst tbl))
      by (apply in_map_iff; exists (lbl, row); split; [reflexivity | exact Hin]).
    rewrite Hlbl, Ho in Hl. apply in_map_iff in Hl.
    destruct Hl as [k [<- _]]. eexists. reflexivity. }
  destruct Hlab as [o ->]. rewrite month_ord_of_ord in Hnull.
  rewrite monthly_row_no_value in Hrow; [injection Hrow as <-; reflexivity |].
  unfold month_bin. rewrite (bin_slice_sorted _ _ Hs).
  apply dropna_all_null. unfold discharges. apply Forall_map, Forall_forall.
  intros r Hr. apply filter_In in Hr. destruct Hr as [Hr Hb].
  apply Hnull; [exact Hr |].
  rewrite Forall_forall in Hcal. apply (month_bin_dates o (Hcal r Hr)), Hb.
Qed.

Lemma GetMonthlyStatistics_empty_month_witness :
  exists (tbl : list (Date * MonthlyRow)) (row : MonthlyRow),
    GetMonthlyStatistics sample_frame = Ok tbl /\
    In (mkDate 1969 11 1, row) tbl /\
    exists first : Observation,
      hd_error sample_frame = Some first /\
      row = mkMoRow (site_no first) NaN NaN NaN NaN.
Proof.
  destruct (@GetMonthlyStatistics_table sample_frame sample_first eq_refl)
    as [tbl [Htbl [Hlbl _]]].
  assert (Hl : In (mkDate 1969 11 1) (map fst tbl))
    by (rewrite Hlbl; right; left; reflexivity).
  apply in_map_iff in Hl. destruct Hl as [[lbl row] [El Hin]].
  cbn [fst] in El. subst lbl.
  exists tbl, row. split; [exact Htbl | split; [exact Hin |]].
  apply (@GetMonthlyStatistics_empty_month sample_frame tbl (mkDate 1969 11 1) row
           ltac:(repeat constructor) ltac:(repeat constructor; simpl; lia)
           Htbl Hin).
  intros r Hr Hord. simpl in Hr.
  repeat (destruct Hr as [<- | Hr]; [vm_compute in Hord; discriminate Hord |]).
  contradiction.
Defined.

(** X19: every row of [GetMonthlyAverages] averages a non-empty group,
    the rows of the table labelled with its month number; in each
    rational column whose entries are finite or null the average is the
    mean of the finite entries of the group, and NaN when there is none. *)
Theorem GetMonthlyAverages_group_means
        (tbl : list (Date * MonthlyRow)) (m : Z) (avg : MonthlyAverage) :
  In (m, avg) (GetMonthlyAverages tbl) ->
  let group := map snd (filter (fun p => (month (fst p) =? m)%Z) tbl) in
  group <> [] /\
  forall c a, In (c, a) mo_fcolumns ->
    finite_or_null (map c group) ->
    a avg = match finite_values (map c group) with
            | [] => NaN
            | vs => Fin (mean_of vs)
            end.
Proof.
  intros Hin group. unfold GetMonthlyAverages in Hin.
  apply in_map_iff in Hin. destruct Hin as [m' [E Hkey]].
  injection E as -> <-. fold (Mo_index) in *. split.
  - apply group_keys_In, in_map_iff in Hkey. destruct Hkey as [p [Hp Hin]].
    unfold group. intros Hnil. apply map_eq_nil in Hnil.
    assert (Hf : In p (filter (fun p => (month (fst p) =? m)%Z) tbl)).
    { apply filter_In. split; [exact Hin |]. apply Z.eqb_eq. exact Hp. }
    rewrite Hnil in Hf. contradiction.
  - intros c a Hca Hfin.
    assert (Ha : a (mkMoAvg
                      (nanmean (map (fun r => Fin (inject_Z (mo_site_no r))) group))
                      (nanmean (map mo_Mean_Flow group))
                      (nanmean (map mo_Coeff_Var group))
                      (nanmean (map mo_TQmean group))
                      (nanmean (map mo_RB_Index group)))
                 = nanmean (map c group)).
    { simpl in Hca.
      repeat (destruct Hca as [Hca | Hca]; [injection Hca as <- <-; reflexivity |]).
      contradiction. }
    unfold group in *. unfold Mo_index. rewrite Ha.
    destruct (finite_values _) as [| v vs] eqn:Ev.
    + rewrite (nanmean_finite_or_null Hfin), Ev. reflexivity.
    + rewrite <- Ev. apply nanmean_Q; [exact Hfin | rewrite Ev; discriminate].
Qed.

Lemma GetMonthlyAverages_group_means_witness :
  exists avg : MonthlyAverage,
    In (10%Z, avg)
       (GetMonthlyAverages
          [ (mkDate 1969 10 1, mkMoRow 3335000 (Fin 2) NaN NaN NaN);
            (mkDate 1969 11 1, mkMoRow 3335000 (Fin 7) NaN NaN NaN);
            (mkDate 1970 10 1, mkMoRow 3335000 (Fin 4) NaN NaN NaN) ]) /\
    moavg_Mean_Flow avg = Fin (mean_of [2; 4]).
Proof.
  eexists. split; [left; reflexivity |].
  refine (proj2 (@GetMonthlyAverages_group_means
                   [ (mkDate 1969 10 1, mkMoRow 3335000 (Fin 2) NaN NaN NaN);
                     (mkDate 1969 11 1, mkMoRow 3335000 (Fin 7) NaN NaN NaN);
                     (mkDate 1970 10 1, mkMoRow 3335000 (Fin 4) NaN NaN NaN) ]
                   10%Z _ _)
                mo_Mean_Flow moavg_Mean_Flow _ _).
  - left. reflexivity.
  - simpl. auto.
  - apply Forall_cons; [right; eexists; reflexivity |].
    apply Forall_cons; [right; eexists; reflexivity |].
    apply Forall_nil.
Defined.

(** ** Clipping twice *)

(** X21: on a date-sorted frame, clipping to one range and then to another
    keeps exactly the rows dated within both ranges, and gives the same
    rows and count whichever range is applied first. *)
Theorem ClipData_commute (DataDF : DataFrame) (s1 e1 s2 e2 : Date) :
  date_sorted DataDF ->
  fst (ClipData (fst (ClipData DataDF s1 e1)) s2 e2)
  = filter (fun r => in_range s1 e1 r && in_range s2 e2 r) DataDF /\
  ClipData (fst (ClipData DataDF s1 e1)) s2 e2
  = ClipData (fst (ClipData DataDF s2 e2)) s1 e1.
Proof.
  intros Hs.
  assert (G : forall a b c d,
             loc_slice c d (loc_slice a b DataDF)
             = filter (fun r => in_range a b r && in_range c d r) DataDF).
  { intros a b c d. rewrite (loc_slice_in_range a b Hs).
    rewrite loc_slice_in_range by (apply date_sorted_filter; exact Hs).
    apply filter_and. }
  unfold ClipData. cbn [fst]. rewrite !G. split; [reflexivity |].
  assert (E : filter (fun r => in_range s1 e1 r && in_range s2 e2 r) DataDF
              = filter (fun r => in_range s2 e2 r && in_range s1 e1 r) DataDF)
    by (apply filter_ext; intros r; apply andb_comm).
  rewrite E. reflexivity.
Qed.

Lemma ClipData_commute_witness :
  fst (ClipData (fst (ClipData sample_frame (mkDate 1969 10 2) (mkDate 1970 10 1)))
                (mkDate 1970 1 1) (mkDate 2019 9 30))
  = filter (fun r => in_range (mkDate 1969 10 2) (mkDate 1970 10 1) r
                     && in_range (mkDate 1970 1 1) (mkDate 2019 9 30) r)
           sample_frame /\
  ClipData (fst (ClipData sample_frame (mkDate 1969 10 2) (mkDate 1970 10 1)))
           (mkDate 1970 1 1) (mkDate 2019 9 30)
  = ClipData (fst (ClipData sample_frame (mkDate 1970 1 1) (mkDate 2019 9 30)))
             (mkDate 1969 10 2) (mkDate 1970 10 1).
Proof.
  apply ClipData_commute. repeat constructor.
Defined.

(* ================================================================= *)
(** * The metrics in double precision *)

(** ** Rounding to a double *)

Lemma round64_Qeq (q q' : Q) : q == q' -> round64 q = round64 q'.
Proof.
  intros E. unfold round64. rewrite (Qred_complete _ _ E). reflexivity.
Qed.

Lemma nearest_even_floor (m : Q) : (Qfloor m <= nearest_even m)%Z.
Proof.
  unfold nearest_even.
  destruct (Qcompare (m - inject_Z (Qfloor m)) (1 # 2));
    [destruct (Z.even (Qfloor m)) | | ]; lia.
Qed.

Lemma nearest_even_upper (m : Q) (N : Z) :
  m <= inject_Z N -> (nearest_even m <= N)%Z.
Proof.
  intros Hm. unfold nearest_even. set (f := Qfloor m).
  assert (Hf : (f <= N)%Z).
  { unfold f. rewrite <- (Qfloor_Z N). apply Qfloor_resp_le, Hm. }
  destruct (Z.eq_dec f N) as [E | NE].
  - assert (Hd : m - inject_Z f <= 0).
    { rewrite E. apply (Qplus_le_l _ _ (inject_Z N)). ring_simplify. exact Hm. }
    destruct (Qcompare_spec (m - inject_Z f) (1 # 2)) as [C | C | C].
    + exfalso. rewrite C in Hd. apply Hd. reflexivity.
    + lia.
    + exfalso. apply (Qlt_not_le _ _ C).
      eapply Qle_trans; [exact Hd | discriminate].
  - destruct (Qcompare (m - inject_Z f) (1 # 2));
      [destruct (Z.even f) | | ]; lia.
Qed.

Lemma ilog2_unit (a : Q) : 0 < a -> a <= 1 -> (ilog2 a <= 0)%Z.
Proof.
  intros H0 H1. unfold ilog2.
  assert (Hle : (Z.log2 (Qnum a) <= Z.log2 (Zpos (Qden a)))%Z).
  { apply Z.log2_le_mono. unfold Qle in H1. simpl in H1. lia. }
  destruct (Qle_bool _ a); lia.
Qed.

(** A quotient between 0 and 1 stays between 0 and 1 when it is stored. *)
Lemma round64_unit (q : Q) :
  0 <= q <= 1 -> exists t : Q, round64 q = Fin t /\ 0 <= t <= 1.
Proof.
  intros [H0 H1]. unfold round64.
  pose proof (Qred_correct q) as Eq'. set (q' := Qred q) in *.
  destruct (Qcompare_spec q' 0) as [E | L | G].
  - exists 0. split; [reflexivity | split; discriminate].
  - exfalso. rewrite Eq' in L. apply (Qlt_not_le _ _ L H0).
  - cbv zeta.
    assert (Ea : Qabs q' == q).
    { rewrite Qabs_pos; [exact Eq' | apply Qlt_le_weak, G]. }
    set (a := Qabs q') in *.
    assert (Ha0 : 0 < a) by (rewrite Ea, <- Eq'; exact G).
    assert (Ha1 : a <= 1) by (rewrite Ea; exact H1).
    set (k := Z.max (ilog2 a - 52) (-1074)).
    assert (Hk : (k <= 0)%Z).
    { pose proof (ilog2_unit Ha0 Ha1). unfold k. lia. }
    set (P := inject_Z (2 ^ (- k))).
    assert (HP : 2 ^ k == / P).
    { unfold P. rewrite Zpower_Qpower by lia.
      rewrite <- Qpower_opp. rewrite Z.opp_involutive. reflexivity. }
    assert (HP0 : 0 < P).
    { unfold P. replace 0 with (inject_Z 0) by reflexivity.
      rewrite <- Zlt_Qlt. apply Z.pow_pos_nonneg; lia. }
    assert (Hm : a / 2 ^ k == a * P).
    { rewrite HP. unfold Qdiv. rewrite Qinv_involutive. reflexivity. }
    set (n := nearest_even (a / 2 ^ k)).
    assert (Hn0 : (0 <= n)%Z).
    { pose proof (nearest_even_floor (a / 2 ^ k)) as Hfl. fold n in Hfl.
      assert (Hz : (0 <= Qfloor (a / 2 ^ k))%Z).
      { change 0%Z with (Qfloor 0). apply Qfloor_resp_le.
        rewrite Hm. apply Qmult_le_0_compat; apply Qlt_le_weak; assumption. }
      lia. }
    assert (Hn1 : (n <= 2 ^ (- k))%Z).
    { apply nearest_even_upper. fold P. rewrite Hm.
      rewrite <- (Qmult_1_l P) at 2.
      apply Qmult_le_compat_r; [exact Ha1 | apply Qlt_le_weak, HP0]. }
    set (r := Qred (inject_Z n * 2 ^ k)).
    assert (Er : r == inject_Z n / P).
    { unfold r. rewrite Qred_correct, HP. reflexivity. }
    assert (Hr : 0 <= r <= 1).
    { rewrite Er. split.
      - apply Qle_shift_div_l; [exact HP0 |]. rewrite Qmult_0_l.
        replace 0 with (inject_Z 0) by reflexivity. rewrite <- Zle_Qle. exact Hn0.
      - apply Qle_shift_div_r; [exact HP0 |]. rewrite Qmult_1_l.
        unfold P. rewrite <- Zle_Qle. exact Hn1. }
    destruct (Qle_bool (2 ^ 1024) r) eqn:B.
    + exfalso. apply Qle_bool_iff in B.
      assert (Hbig : 1 < 2 ^ 1024) by reflexivity.
      apply (Qlt_not_le _ _ Hbig). eapply Qle_trans; [exact B | apply Hr].
    + exists r. split; [reflexivity | exact Hr].
Qed.

(** ** CalcTqmean on doubles *)

(** C5, as the code has it: with at least one non-null value,
    [CalcTqmean] is the number of non-null values strictly above the mean
    that [Series.mean()] computed, divided by the number of non-null
    values and rounded; it lies between 0 and 1.  Where the computed mean
    is the arithmetic mean, this is the fraction of the values strictly
    above their arithmetic mean. *)
Theorem CalcTqmean_f64_fraction (mean : list Q -> fval) (Qvalues : Series) :
  dropna Qvalues <> [] ->
  exists t : Q,
    CalcTqmean_f64 mean Qvalues = Ok (Fin t) /\
    0 <= t <= 1 /\
    (forall m : Q, mean (dropna Qvalues) = Fin m ->
       Fin t = round64
                 (inject_Z (Z.of_nat (length (strictly_above m (dropna Qvalues))))
                  / inject_Z (Z.of_nat (length (dropna Qvalues))))) /\
    (mean (dropna Qvalues) =f= Fin (mean_of (dropna Qvalues)) ->
       Fin t = round64
                 (inject_Z (Z.of_nat (length (strictly_above
                                                (mean_of (dropna Qvalues))
                                                (dropna Qvalues))))
                  / inject_Z (Z.of_nat (length (dropna Qvalues))))).
Proof.
  intros Hne. set (xs := dropna Qvalues) in *.
  pose proof (qlen_pos Hne) as Hpos. unfold qlen in Hpos.
  set (c := count_gt (mean xs) xs).
  assert (Hc : (c <= length xs)%nat) by apply filter_length_le.
  assert (Hq : 0 <= inject_Z (Z.of_nat c) / inject_Z (Z.of_nat (length xs)) <= 1).
  { split.
    - apply Qle_shift_div_l; [exact Hpos |].
      rewrite Qmult_0_l. replace 0 with (inject_Z 0) by reflexivity.
      rewrite <- Zle_Qle. lia.
    - apply Qle_shift_div_r; [exact Hpos |].
      rewrite Qmult_1_l. rewrite <- Zle_Qle. lia. }
  destruct (round64_unit Hq) as [t [Ht Hrange]].
  assert (Hm : forall m : Q, mean xs = Fin m ->
             Fin t = round64
                       (inject_Z (Z.of_nat (length (strictly_above m xs)))
                        / inject_Z (Z.of_nat (length xs)))).
  { intros m Em. rewrite <- Ht. unfold c. rewrite Em, count_gt_Fin. reflexivity. }
  exists t. split; [| split; [exact Hrange | split; [exact Hm |]]].
  - unfold CalcTqmean_f64. fold xs. fold c. unfold div64.
    rewrite !of_nat_Q, (xdiv_pos _ Hpos). cbn [f64]. rewrite Ht. reflexivity.
  - intros Em. destruct (mean xs) as [m | | | ] eqn:E; try contradiction.
    rewrite (Hm m eq_refl). simpl in Em.
    rewrite (strictly_above_Qeq xs Em). reflexivity.
Qed.

Lemma CalcTqmean_f64_fraction_witness :
  exists t : Q,
    CalcTqmean_f64 mean64 [Some 1; None; Some 2; Some 6] = Ok (Fin t) /\
    0 <= t <= 1 /\
    (forall m : Q, mean64 (dropna [Some 1; None; Some 2; Some 6]) = Fin m ->
       Fin t = round64
                 (inject_Z (Z.of_nat (length (strictly_above m
                            (dropna [Some 1; None; Some 2; Some 6]))))
                  / inject_Z (Z.of_nat (length
                            (dropna [Some 1; None; Some 2; Some 6]))))) /\
    (mean64 (dropna [Some 1; None; Some 2; Some 6])
     =f= Fin (mean_of (dropna [Some 1; None; Some 2; Some 6])) ->
       Fin t = round64
                 (inject_Z (Z.of_nat (length (strictly_above
                            (mean_of (dropna [Some 1; None; Some 2; Some 6]))
                            (dropna [Some 1; None; Some 2; Some 6]))))
                  / inject_Z (Z.of_nat (length
                            (dropna [Some 1; None; Some 2; Some 6]))))).
Proof.
  apply (@CalcTqmean_f64_fraction mean64 [Some 1; None; Some 2; Some 6]).
  discriminate.
Defined.

(** C5, where the claim fails: the sum of six doubles 0.1 is rounded
    below six tenths, so the computed mean lies below every value and
    [CalcTqmean] is 1, although no value exceeds the arithmetic mean. *)
Lemma CalcTqmean_f64_constant_series :
  (exists m : Q,
      mean64 (dropna tenth_series) = Fin m /\ m < double (1 # 10)) /\
  CalcTqmean_f64 mean64 tenth_series = Ok (Fin 1) /\
  mean_of (dropna tenth_series) == double (1 # 10) /\
  strictly_above (mean_of (dropna tenth_series)) (dropna tenth_series) = [].
Proof.
  split; [| split; [| split]].
  - eexists. split; [vm_compute; reflexivity | vm_compute; reflexivity].
  - vm_compute. reflexivity.
  - vm_compute. reflexivity.
  - vm_compute. reflexivity.
Qed.

(** ** CalcExceed3TimesMedian on doubles *)

Lemma median64_middle64 (xs : list Q) :
  median64 xs = middle64 (QSort.sort xs).
Proof. reflexivity. Qed.

Lemma add64_Qeq (a a' b b' : Q) :
  a == a' -> b == b' -> add64 (Fin a) (Fin b) = add64 (Fin a') (Fin b').
Proof.
  intros Ea Eb. unfold add64. cbn [xadd nadd Num_Q f64].
  apply round64_Qeq. rewrite Ea, Eb. reflexivity.
Qed.

Lemma mul64_Qeq (a a' b b' : Q) :
  a == a' -> b == b' -> mul64 (Fin a) (Fin b) = mul64 (Fin a') (Fin b').
Proof.
  intros Ea Eb. unfold mul64. cbn [xmul nmul Num_Q f64].
  apply round64_Qeq. rewrite Ea, Eb. reflexivity.
Qed.

(** Three times the middle does not depend on how ties were ordered. *)
Lemma middle64_unique (s s' : list Q) :
  StronglySorted Qle s -> StronglySorted Qle s' -> Permutation s s' ->
  mul64 (Fin 3) (middle64 s) = mul64 (Fin 3) (middle64 s').
Proof.
  intros Hs Hs' Hp. unfold middle64.
  rewrite <- (Permutation_length Hp).
  destruct s as [| a t].
  - reflexivity.
  - set (n := length (a :: t)).
    assert (Hn : (0 < n)%nat) by (unfold n; simpl; lia).
    assert (Hhalf : (n / 2 < n)%nat) by (apply Nat.div_lt; lia).
    destruct n as [| n'] eqn:En; [lia |]. rewrite <- En in *.
    destruct (Nat.even n).
    + rewrite (@add64_Qeq (nth (n / 2 - 1) (a :: t) 0) (nth (n / 2 - 1) s' 0)
                          (nth (n / 2) (a :: t) 0) (nth (n / 2) s' 0)).
      * reflexivity.
      * apply sorted_perm_nth; auto. fold n. lia.
      * apply sorted_perm_nth; auto.
    + apply mul64_Qeq; [reflexivity | apply sorted_perm_nth; auto].
Qed.

(** C6, as the code has it: [CalcExceed3TimesMedian] counts the non-null
    values strictly greater than the product of 3 and the median as a
    double holds it, the median being the middle of the non-null values
    in ascending order (for an even count, the two middle values added
    and halved in doubles); [1,1,1,5] has median 1 and count 1. *)
Theorem CalcExceed3TimesMedian_f64_count :
  (forall (Qvalues : Series) (s : list Q),
      Permutation s (dropna Qvalues) -> StronglySorted Qle s ->
      CalcExceed3TimesMedian_f64 Qvalues
      = Ok (count_gt (mul64 (Fin 3) (middle64 s)) (dropna Qvalues)) /\
      forall t : Q, mul64 (Fin 3) (middle64 s) = Fin t ->
        CalcExceed3TimesMedian_f64 Qvalues
        = Ok (length (strictly_above t (dropna Qvalues)))) /\
  (forall Qvalues : Series, exists s : list Q,
      Permutation s (dropna Qvalues) /\ StronglySorted Qle s) /\
  (middle64 [1; 1; 1; 5] = Fin 1 /\
   mul64 (Fin 3) (Fin 1) = Fin 3 /\
   CalcExceed3TimesMedian_f64 [Some 1; Some 1; Some 1; Some 5] = Ok 1%nat).
Proof.
  split; [| split].
  - intros Qvalues s Hp Hs.
    assert (E : CalcExceed3TimesMedian_f64 Qvalues
                = Ok (count_gt (mul64 (Fin 3) (middle64 s)) (dropna Qvalues))).
    { unfold CalcExceed3TimesMedian_f64. cbv zeta.
      rewrite median64_middle64. do 2 f_equal.
      apply middle64_unique; [apply sort_sorted | exact Hs |].
      eapply Permutation_trans; [| apply Permutation_sym; exact Hp].
      apply Permutation_sym, QSort.Permuted_sort. }
    split; [exact E |].
    intros t Et. rewrite E, Et, count_gt_Fin. reflexivity.
  - intros Qvalues. exists (QSort.sort (dropna Qvalues)). split.
    + apply Permutation_sym, QSort.Permuted_sort.
    + apply sort_sorted.
  - split; [| split]; vm_compute; reflexivity.
Qed.

Lemma CalcExceed3TimesMedian_f64_count_witness :
  CalcExceed3TimesMedian_f64 flood_series
  = Ok (count_gt (mul64 (Fin 3) (middle64 [1; 1; 1; 5])) (dropna flood_series)).
Proof.
  refine (proj1 (proj1 CalcExceed3TimesMedian_f64_count flood_series
                   [1; 1; 1; 5] (Permutation_refl _) _)).
  repeat constructor; discriminate.
Defined.

(** C6, where the claim fails: for the doubles 0.9, 0.9, 0.9 and 2.7 the
    median is 0.9 and 2.7 exceeds three times 0.9, but the product is
    rounded up to 2.7 itself, and the code counts no value. *)
Lemma CalcExceed3TimesMedian_f64_rounded_product :
  is_median (double (9 # 10)) (dropna spate_series) /\
  3 * double (9 # 10) < double (27 # 10) /\
  length (strictly_above (3 * double (9 # 10)) (dropna spate_series)) = 1%nat /\
  mul64 (Fin 3) (median64 (dropna spate_series)) = Fin (double (27 # 10)) /\
  CalcExceed3TimesMedian_f64 spate_series = Ok 0%nat.
Proof.
  split; [| split; [| split; [| split]]].
  - exists (dropna spate_series). split; [apply Permutation_refl | split].
    + assert (Hab : double (9 # 10) <= double (27 # 10))
        by (vm_compute; discriminate).
      pose proof (Qle_refl (double (9 # 10))) as Haa.
      change (dropna spate_series)
        with [double (9 # 10); double (9 # 10); double (9 # 10); double (27 # 10)].
      repeat (apply SSorted_cons || apply SSorted_nil || apply Forall_cons
              || apply Forall_nil); assumption.
    + vm_compute. reflexivity.
  - vm_compute. reflexivity.
  - vm_compute. reflexivity.
  - vm_compute. reflexivity.
  - vm_compute. reflexivity.
Qed.
